(** * dev-prod-report: pull-request metrics of [index.js]

    A shallow embedding of the metrics code of [index.js]: the detail
    aggregator [fetchPRDetails], the bounded-range pass
    [calculatePRMetrics] with the summary lines of [generateReport], and
    the rolling-week pass, ranking and table rows of
    [generateWeeklyPRReport].

    Modelling conventions.
    - A [moment] is its epoch value in milliseconds, a [Z]; only valid
      moments are modelled.
    - A JavaScript number that holds a count is a [nat]; one that holds a
      sum of durations in hours is a rational [Q] (the exact value; binary
      rounding of the doubles is not modelled); the result of a division
      is a [Number], which adds [NaN] and the two infinities.
    - A promise is its outcome, a [Completion]: fulfilled with a value or
      rejected with an error.  [await] is the bind of that monad and
      [try]/[catch] is [try_catch].
    - The remote API is a record of functions [Octokit], one per endpoint
      the code calls; within one run it answers a given request the same
      way every time.
    - The plain object [metrics.contributors] is a [gmap string _]; author
      handles that name a member of [Object.prototype] are outside the
      model.  The [Map]s [details] and [prDetailsByRepo] are [gmap]s; the
      [Map] [contributorMetrics], whose insertion order feeds the ranking,
      is an association list with one entry per key. *)

From Stdlib Require Import QArith Qround Qabs.
From stdpp Require Import gmap strings list fin_maps sorting pretty.

Local Open Scope string_scope.
Local Open Scope Z_scope.

(** ** Outcomes of asynchronous calls *)

Inductive Completion (A : Type) : Type :=
  | Normal (a : A)
  | Throw (e : string).
Arguments Normal {A} a.
Arguments Throw {A} e.

Definition await {A B} (c : Completion A) (k : A → Completion B) : Completion B :=
  match c with
  | Normal a => k a
  | Throw e => Throw e
  end.

Definition try_catch {A} (body : Completion A) (handler : string → Completion A)
  : Completion A :=
  match body with
  | Normal a => Normal a
  | Throw e => handler e
  end.

#[global] Instance Completion_ret : MRet Completion := λ A a, Normal a.
#[global] Instance Completion_bind : MBind Completion := λ A B k c, await c k.

(** [Promise.all] of three promises: fulfilled with the triple when all
    three are, rejected otherwise. *)
Definition Promise_all3 {A B C} (a : Completion A) (b : Completion B)
    (c : Completion C) : Completion (A * B * C) :=
  x ← a; y ← b; z ← c; Normal (x, y, z).

(** ** Data model *)

Inductive PRState := Open | Closed.

#[global] Instance PRState_eq_dec : EqDecision PRState.
Proof. solve_decision. Defined.

Record PullRequest := {
  number : Z;
  repoName : string;
  state : PRState;
  user_login : string;
  created_at : Z;
  merged_at : option Z;
  closed_at : option Z;
  updated_at : Z
}.

Record Comment := { comment_body : string }.
Record Review := { review_state : string }.

Record PRDetail := {
  totalComments : nat;
  reviewComments : nat;
  discussionComments : nat;
  reviews : nat;
  approvals : nat;
  changesRequested : nat
}.

Record Octokit := {
  pulls_list : string → Completion (list PullRequest);
  issues_listComments : string → Z → Completion (list Comment);
  pulls_listReviewComments : string → Z → Completion (list Comment);
  pulls_listReviews : string → Z → Completion (list Review)
}.

(** ** moment.js operations used by the code *)

Definition isAfter (a b : Z) : bool := b <? a.
Definition isBefore (a b : Z) : bool := a <? b.

(** [t.isBetween(from, to, null, '[]')] *)
Definition isBetween (t from to : Z) : bool :=
  negb (isBefore t from) && negb (isAfter t to).

(** moment's [absFloor]: [Math.ceil] below zero, [Math.floor] otherwise. *)
Definition absFloor (x : Q) : Z :=
  if Qlt_le_dec x 0 then Qceiling x else Qfloor x.

(** [a.diff(b, 'hours', asFloat)]: the difference in milliseconds divided
    by 36e5, passed through [absFloor] unless [asFloat] is set. *)
Definition diff_hours (a b : Z) (asFloat : bool) : Q :=
  let output := Qmake (a - b) 3600000 in
  if asFloat then output else inject_Z (absFloor output).

(** ** fetchPRs *)

Definition tagRepo (repo : string) (pr : PullRequest) : PullRequest :=
  {| number := number pr; repoName := repo; state := state pr;
     user_login := user_login pr; created_at := created_at pr;
     merged_at := merged_at pr; closed_at := closed_at pr;
     updated_at := updated_at pr |}.

Definition fetchPRs (octokit : Octokit) (repo : string) : Completion (list PullRequest) :=
  try_catch
    (prs ← pulls_list octokit repo; Normal (map (tagRepo repo) prs))
    (λ _, Normal []).

(** ** fetchPRDetails *)

Definition zeroDetail : PRDetail :=
  {| totalComments := 0; reviewComments := 0; discussionComments := 0;
     reviews := 0; approvals := 0; changesRequested := 0 |}.

Definition hasState (s : string) (r : Review) : bool :=
  bool_decide (review_state r = s).

(** The body of the [try] block, up to the value passed to [details.set]. *)
Definition detailOf (octokit : Octokit) (repo : string) (prNumber : Z)
  : Completion PRDetail :=
  '(comments, reviewCommentsL, reviewsL) ←
     Promise_all3 (issues_listComments octokit repo prNumber)
                  (pulls_listReviewComments octokit repo prNumber)
                  (pulls_listReviews octokit repo prNumber);
  let discussion := length comments in
  let reviewCommentsCount := length reviewCommentsL in
  let reviewsCount := length reviewsL in
  let approved := length (filter (λ r, hasState "APPROVED" r = true) reviewsL) in
  let changes := length (filter (λ r, hasState "CHANGES_REQUESTED" r = true) reviewsL) in
  Normal {| totalComments := (discussion + reviewCommentsCount)%nat;
            reviewComments := reviewCommentsCount;
            discussionComments := discussion;
            reviews := reviewsCount;
            approvals := approved;
            changesRequested := changes |}.

(** The [for] loop over [prNumbers], threading the [details] map. *)
Fixpoint fetchLoop (octokit : Octokit) (repo : string) (prNumbers : list Z)
    (details : gmap Z PRDetail) : Completion (gmap Z PRDetail) :=
  match prNumbers with
  | [] => Normal details
  | prNumber :: rest =>
      details' ← try_catch
        (d ← detailOf octokit repo prNumber; Normal (<[prNumber := d]> details))
        (λ _, Normal (<[prNumber := zeroDetail]> details));
      fetchLoop octokit repo rest details'
  end.

Definition fetchPRDetails (octokit : Octokit) (repo : string) (prNumbers : list Z)
  : Completion (gmap Z PRDetail) :=
  fetchLoop octokit repo prNumbers ∅.

(** What one iteration stores for [prNumber]: the fetched record, or the
    all-zero record when the fetch is rejected. *)
Definition storedDetail (octokit : Octokit) (repo : string) (prNumber : Z) : PRDetail :=
  match detailOf octokit repo prNumber with
  | Normal d => d
  | Throw _ => zeroDetail
  end.

Definition fetchFails (octokit : Octokit) (repo : string) (prNumber : Z) : Prop :=
  ∃ e, detailOf octokit repo prNumber = Throw e.

(** Two clients answer the three detail requests for [n] alike. *)
Definition sameAnswers (o1 o2 : Octokit) (repo : string) (n : Z) : Prop :=
  issues_listComments o1 repo n = issues_listComments o2 repo n ∧
  pulls_listReviewComments o1 repo n = pulls_listReviewComments o2 repo n ∧
  pulls_listReviews o1 repo n = pulls_listReviews o2 repo n.

(** ** Numbers and their formatting *)

Inductive Number :=
  | Finite (q : Q)
  | NaN
  | Infinity (negative : bool).

(** [x / y] on finite operands: a zero divisor gives [NaN] or an
    infinity. *)
Definition Number_div (x y : Q) : Number :=
  if Qeq_bool y 0 then
    if Qeq_bool x 0 then NaN
    else Infinity (if Qlt_le_dec x 0 then true else false)
  else Finite (x / y).

(** [x === 0] *)
Definition Number_isZero (x : Number) : bool :=
  match x with
  | Finite q => Qeq_bool q 0
  | _ => false
  end.

(** [x.toFixed(1)] on a finite [x]: sign, then the integer [n] nearest to
    [10 * |x|] (the larger one on a tie) written with a point before its
    last digit. *)
Definition toFixed1 (x : Q) : string :=
  let s := if Qlt_le_dec x 0 then "-" else "" in
  let n := Qfloor (Qabs x * 10 + (1 # 2))%Q in
  s ++ pretty (n / 10) ++ "." ++ pretty (n mod 10).

Definition Number_toFixed1 (x : Number) : string :=
  match x with
  | Finite q => toFixed1 q
  | NaN => "NaN"
  | Infinity negative => if negative then "-Infinity" else "Infinity"
  end.

Definition newline : string := String (Ascii.ascii_of_nat 10) EmptyString.

(** A count interpolated into a template string. *)
Definition showNat (n : nat) : string := pretty n.

Definition numQ (n : nat) : Q := inject_Z (Z.of_nat n).

(** ** Bounded-range mode: calculatePRMetrics *)

Module Contributor.
Record t := mk {
  newPRs : nat;
  mergedPRs : nat;
  openPRs : nat;
  comments : nat
}.
Definition zero : t := mk 0 0 0 0.
Definition incNewPRs (c : t) : t :=
  mk (S (newPRs c)) (mergedPRs c) (openPRs c) (comments c).
Definition incMergedPRs (c : t) : t :=
  mk (newPRs c) (S (mergedPRs c)) (openPRs c) (comments c).
Definition incOpenPRs (c : t) : t :=
  mk (newPRs c) (mergedPRs c) (S (openPRs c)) (comments c).
Definition setComments (n : nat) (c : t) : t :=
  mk (newPRs c) (mergedPRs c) (openPRs c) n.
End Contributor.

Module Metrics.
Record t := mk {
  newPRs : nat;
  mergedPRs : nat;
  openPRs : nat;
  avgTimeToMerge : Number;
  avgTimeToFirstReview : Number;
  contributors : gmap string Contributor.t
}.
End Metrics.

(** The variables of [calculatePRMetrics] that its loop updates: the
    counters and contributor object of [metrics] and the four locals. *)
Record LoopState := {
  newPRs : nat;
  mergedPRs : nat;
  openPRs : nat;
  contributors : gmap string Contributor.t;
  totalMergeTime : Q;
  totalFirstReviewTime : Q;
  mergedCount : nat;
  reviewedCount : nat
}.

Definition initialState : LoopState :=
  {| newPRs := 0; mergedPRs := 0; openPRs := 0; contributors := ∅;
     totalMergeTime := 0; totalFirstReviewTime := 0;
     mergedCount := 0; reviewedCount := 0 |}.

(** [metrics.newPRs++], then the lazy creation of the contributor record,
    then [metrics.contributors[contributor].newPRs++]. *)
Definition countNew (contributor : string) (st : LoopState) : LoopState :=
  let cs := match contributors st !! contributor with
            | Some _ => contributors st
            | None => <[contributor := Contributor.zero]> (contributors st)
            end in
  {| newPRs := S (newPRs st); mergedPRs := mergedPRs st; openPRs := openPRs st;
     contributors := alter Contributor.incNewPRs contributor cs;
     totalMergeTime := totalMergeTime st;
     totalFirstReviewTime := totalFirstReviewTime st;
     mergedCount := mergedCount st; reviewedCount := reviewedCount st |}.

(** The [if (pr.state === 'open') ... else if (pr.merged_at) ...] statement. *)
Definition countState (pr : PullRequest) (contributor : string) (st : LoopState)
  : LoopState :=
  if decide (state pr = Open) then
    {| newPRs := newPRs st; mergedPRs := mergedPRs st; openPRs := S (openPRs st);
       contributors := alter Contributor.incOpenPRs contributor (contributors st);
       totalMergeTime := totalMergeTime st;
       totalFirstReviewTime := totalFirstReviewTime st;
       mergedCount := mergedCount st; reviewedCount := reviewedCount st |}
  else match merged_at pr with
  | Some mergedAt =>
    let mergeTime := diff_hours mergedAt (created_at pr) true in
    {| newPRs := newPRs st; mergedPRs := S (mergedPRs st); openPRs := openPRs st;
       contributors := alter Contributor.incMergedPRs contributor (contributors st);
       totalMergeTime := (totalMergeTime st + mergeTime)%Q;
       totalFirstReviewTime := totalFirstReviewTime st;
       mergedCount := S (mergedCount st); reviewedCount := reviewedCount st |}
  | None => st
  end.

(** The [if (details)] statement. *)
Definition recordDetails (prDetails : gmap Z PRDetail) (pr : PullRequest)
    (contributor : string) (st : LoopState) : LoopState :=
  match prDetails !! number pr with
  | Some details =>
    let cs := alter (Contributor.setComments (totalComments details)) contributor
                    (contributors st) in
    if (0 <? reviews details)%nat then
      let firstReview := created_at pr + 2 * 3600000 in
      let reviewTime := diff_hours firstReview (created_at pr) true in
      {| newPRs := newPRs st; mergedPRs := mergedPRs st; openPRs := openPRs st;
         contributors := cs;
         totalMergeTime := totalMergeTime st;
         totalFirstReviewTime := (totalFirstReviewTime st + reviewTime)%Q;
         mergedCount := mergedCount st; reviewedCount := S (reviewedCount st) |}
    else
      {| newPRs := newPRs st; mergedPRs := mergedPRs st; openPRs := openPRs st;
         contributors := cs;
         totalMergeTime := totalMergeTime st;
         totalFirstReviewTime := totalFirstReviewTime st;
         mergedCount := mergedCount st; reviewedCount := reviewedCount st |}
  | None => st
  end.

(** One iteration of [for (const pr of prs)]. *)
Definition processPR (start end_ : Z) (prDetails : gmap Z PRDetail)
    (st : LoopState) (pr : PullRequest) : LoopState :=
  let created := created_at pr in
  if isBetween created start end_ then
    let contributor := user_login pr in
    recordDetails prDetails pr contributor
      (countState pr contributor (countNew contributor st))
  else st.

Definition processPRs (start end_ : Z) (prDetails : gmap Z PRDetail)
    (prs : list PullRequest) : LoopState :=
  foldl (processPR start end_ prDetails) initialState prs.

(** The two averages and the returned [metrics] object. *)
Definition finalize (st : LoopState) : Metrics.t :=
  {| Metrics.newPRs := newPRs st;
     Metrics.mergedPRs := mergedPRs st;
     Metrics.openPRs := openPRs st;
     Metrics.avgTimeToMerge :=
       if (0 <? mergedCount st)%nat
       then Number_div (totalMergeTime st) (numQ (mergedCount st))
       else Finite 0;
     Metrics.avgTimeToFirstReview :=
       if (0 <? reviewedCount st)%nat
       then Number_div (totalFirstReviewTime st) (numQ (reviewedCount st))
       else Finite 0;
     Metrics.contributors := contributors st |}.

Definition calculatePRMetrics (octokit : Octokit) (repo : string) (startDate endDate : Z)
  : Completion Metrics.t :=
  prs ← fetchPRs octokit repo;
  prDetails ← fetchPRDetails octokit repo (map number prs);
  Normal (finalize (processPRs startDate endDate prDetails prs)).

(** ** generateReport: the summary block *)

Definition showHours (avg : Number) : string :=
  if Number_isZero avg then "N/A" else Number_toFixed1 avg ++ " hours".

Definition generateReport_summary (metrics : Metrics.t) : list string :=
  [ "# GitHub Activity Report";
    "";
    "## Summary";
    "- New PRs: " ++ showNat (Metrics.newPRs metrics);
    "- Merged PRs: " ++ showNat (Metrics.mergedPRs metrics);
    "- Open PRs: " ++ showNat (Metrics.openPRs metrics);
    "- Average Time to Merge: " ++ showHours (Metrics.avgTimeToMerge metrics);
    "- Average Time to First Review: " ++
      showHours (Metrics.avgTimeToFirstReview metrics);
    "" ].

(** ** Rolling-week mode: generateWeeklyPRReport *)

Module Weekly.
Record t := mk {
  newPRsThisWeek : nat;
  mergedPRsThisWeek : nat;
  openPRs : nat;
  closedPRsThisWeek : nat;
  totalComments : nat;
  mergedPRCount : nat;
  totalMergeTime : Q
}.
Definition zero : t := mk 0 0 0 0 0 0 0.
Definition incNew (m : t) : t :=
  mk (S (newPRsThisWeek m)) (mergedPRsThisWeek m) (openPRs m)
     (closedPRsThisWeek m) (totalComments m) (mergedPRCount m) (totalMergeTime m).
Definition incOpen (m : t) : t :=
  mk (newPRsThisWeek m) (mergedPRsThisWeek m) (S (openPRs m))
     (closedPRsThisWeek m) (totalComments m) (mergedPRCount m) (totalMergeTime m).
(** [mergedPRsThisWeek++; totalMergeTime += timeToMerge; mergedPRCount++] *)
Definition addMerge (timeToMerge : Q) (m : t) : t :=
  mk (newPRsThisWeek m) (S (mergedPRsThisWeek m)) (openPRs m)
     (closedPRsThisWeek m) (totalComments m) (S (mergedPRCount m))
     (totalMergeTime m + timeToMerge)%Q.
Definition incClosed (m : t) : t :=
  mk (newPRsThisWeek m) (mergedPRsThisWeek m) (openPRs m)
     (S (closedPRsThisWeek m)) (totalComments m) (mergedPRCount m) (totalMergeTime m).
Definition addComments (n : nat) (m : t) : t :=
  mk (newPRsThisWeek m) (mergedPRsThisWeek m) (openPRs m)
     (closedPRsThisWeek m) (totalComments m + n)%nat (mergedPRCount m)
     (totalMergeTime m).
End Weekly.

(** The insertion-ordered [Map] from author to record. *)
Abbreviation ContributorMap := (list (string * Weekly.t)).

Fixpoint Map_get (k : string) (m : ContributorMap) : option Weekly.t :=
  match m with
  | [] => None
  | (k', v) :: rest => if decide (k = k') then Some v else Map_get k rest
  end.

Definition Map_has (k : string) (m : ContributorMap) : bool :=
  bool_decide (is_Some (Map_get k m)).

(** [Map.prototype.set]: a present key keeps its position, a new key goes
    last. *)
Fixpoint Map_set (k : string) (v : Weekly.t) (m : ContributorMap) : ContributorMap :=
  match m with
  | [] => [(k, v)]
  | (k', v') :: rest =>
      if decide (k = k') then (k, v) :: rest else (k', v') :: Map_set k v rest
  end.

(** [mergedAt && mergedAt.isAfter(lastWeekDate)] *)
Definition mergedThisWeek (lastWeekDate : Z) (pr : PullRequest) : option Z :=
  match merged_at pr with
  | Some mergedAt => if isAfter mergedAt lastWeekDate then Some mergedAt else None
  | None => None
  end.

(** [pr.closed_at && moment(pr.closed_at).isAfter(lastWeekDate) && !pr.merged_at] *)
Definition closedThisWeek (lastWeekDate : Z) (pr : PullRequest) : bool :=
  match closed_at pr with
  | Some closedAt =>
      isAfter closedAt lastWeekDate && negb (bool_decide (is_Some (merged_at pr)))
  | None => false
  end.

(** The [if (pr.state === 'open') ... else if ... else if ...] statement
    on the record of the PR's author. *)
Definition trackState (lastWeekDate : Z) (pr : PullRequest) (metrics : Weekly.t)
  : Weekly.t :=
  if decide (state pr = Open) then Weekly.incOpen metrics
  else match mergedThisWeek lastWeekDate pr with
  | Some mergedAt =>
      let timeToMerge := diff_hours mergedAt (created_at pr) false in
      Weekly.addMerge timeToMerge metrics
  | None =>
      if closedThisWeek lastWeekDate pr then Weekly.incClosed metrics else metrics
  end.

Definition trackNew (lastWeekDate : Z) (pr : PullRequest) (metrics : Weekly.t)
  : Weekly.t :=
  if isAfter (created_at pr) lastWeekDate then Weekly.incNew metrics else metrics.

Definition trackComments (prDetailsByRepo : gmap string (gmap Z PRDetail))
    (pr : PullRequest) (metrics : Weekly.t) : Weekly.t :=
  match prDetailsByRepo !! repoName pr with
  | Some repoDetails =>
      match repoDetails !! number pr with
      | Some d => Weekly.addComments (totalComments d) metrics
      | None => metrics
      end
  | None => metrics
  end.

(** One iteration of [for (const pr of allPRs)].  The record fetched with
    [get] is the object stored in the map, so its updates are written back
    under the same key. *)
Definition processWeeklyPR (lastWeekDate : Z)
    (prDetailsByRepo : gmap string (gmap Z PRDetail))
    (contributorMetrics : ContributorMap) (pr : PullRequest) : ContributorMap :=
  let author := user_login pr in
  let cm := if Map_has author contributorMetrics then contributorMetrics
            else Map_set author Weekly.zero contributorMetrics in
  match Map_get author cm with
  | Some metrics =>
      Map_set author
        (trackComments prDetailsByRepo pr
           (trackState lastWeekDate pr (trackNew lastWeekDate pr metrics)))
        cm
  | None => cm
  end.

Definition processWeeklyPRs (lastWeekDate : Z)
    (prDetailsByRepo : gmap string (gmap Z PRDetail))
    (allPRs : list PullRequest) : ContributorMap :=
  foldl (processWeeklyPR lastWeekDate prDetailsByRepo) [] allPRs.

(** The comparator passed to [sort]. *)
Definition compareContributors (a b : Weekly.t) : Z :=
  if negb (Weekly.mergedPRsThisWeek a =? Weekly.mergedPRsThisWeek b)%nat then
    Z.of_nat (Weekly.mergedPRsThisWeek b) - Z.of_nat (Weekly.mergedPRsThisWeek a)
  else if negb (Weekly.newPRsThisWeek a =? Weekly.newPRsThisWeek b)%nat then
    Z.of_nat (Weekly.newPRsThisWeek b) - Z.of_nat (Weekly.newPRsThisWeek a)
  else Z.of_nat (Weekly.openPRs b) - Z.of_nat (Weekly.openPRs a).

(** [Array.prototype.sort] with a comparator: a stable sort, here by
    insertion.  An element goes in front of the first one it does not
    have to follow. *)
Section ArraySort.
Context {A : Type} (cmp : A → A → Z).

Fixpoint sort_insert (x : A) (l : list A) : list A :=
  match l with
  | [] => [x]
  | y :: rest => if cmp x y <=? 0 then x :: y :: rest else y :: sort_insert x rest
  end.

Fixpoint Array_sort (l : list A) : list A :=
  match l with
  | [] => []
  | x :: rest => sort_insert x (Array_sort rest)
  end.
End ArraySort.

Definition sortedContributors (contributorMetrics : ContributorMap) : ContributorMap :=
  Array_sort (λ e1 e2, compareContributors e1.2 e2.2) contributorMetrics.

(** The [avgTimeToMerge] cell of a table row. *)
Definition avgTimeToMergeCell (metrics : Weekly.t) : string :=
  if (0 <? Weekly.mergedPRCount metrics)%nat
  then Number_toFixed1
         (Number_div (Weekly.totalMergeTime metrics)
                     (numQ (Weekly.mergedPRCount metrics)))
  else "0.0".

Definition avgCommentsCell (metrics : Weekly.t) : string :=
  let totalPRsWithActivity :=
    (Weekly.newPRsThisWeek metrics + Weekly.mergedPRsThisWeek metrics
     + Weekly.closedPRsThisWeek metrics)%nat in
  if (0 <? totalPRsWithActivity)%nat
  then Number_toFixed1
         (Number_div (numQ (Weekly.totalComments metrics)) (numQ totalPRsWithActivity))
  else "0.0".

Definition tableRow (entry : string * Weekly.t) : string :=
  let '(author, metrics) := entry in
  "| " ++ author ++ " | " ++ showNat (Weekly.newPRsThisWeek metrics) ++ " | "
  ++ showNat (Weekly.mergedPRsThisWeek metrics) ++ " | "
  ++ showNat (Weekly.openPRs metrics) ++ " | "
  ++ showNat (Weekly.closedPRsThisWeek metrics) ++ " | "
  ++ avgTimeToMergeCell metrics ++ " | " ++ avgCommentsCell metrics ++ " |"
  ++ newline.

Definition tableRows (contributorMetrics : ContributorMap) : list string :=
  map tableRow (sortedContributors contributorMetrics).

(** The [reduce] that sums the records field by field. *)
Definition totalMetrics (contributorMetrics : ContributorMap) : Weekly.t :=
  foldl (λ acc curr,
      Weekly.mk
        (Weekly.newPRsThisWeek acc + Weekly.newPRsThisWeek curr)
        (Weekly.mergedPRsThisWeek acc + Weekly.mergedPRsThisWeek curr)
        (Weekly.openPRs acc + Weekly.openPRs curr)
        (Weekly.closedPRsThisWeek acc + Weekly.closedPRsThisWeek curr)
        (Weekly.totalComments acc + Weekly.totalComments curr)
        (Weekly.mergedPRCount acc + Weekly.mergedPRCount curr)
        (Weekly.totalMergeTime acc + Weekly.totalMergeTime curr)%Q)
    Weekly.zero contributorMetrics.*2.

Definition overallAvgTimeToMerge (contributorMetrics : ContributorMap) : string :=
  avgTimeToMergeCell (totalMetrics contributorMetrics).

(** The data part of [generateWeeklyPRReport]: fetch, group the numbers by
    repository, fetch the details, run the loop. *)
Definition groupByRepo (allPRs : list PullRequest) : gmap string (list Z) :=
  foldl (λ acc pr,
      <[repoName pr := app (default [] (acc !! repoName pr)) [number pr]]> acc)
    ∅ allPRs.

Definition weeklyContributorMetrics (octokit : Octokit) (repositories : list string)
    (lastWeekDate : Z) : Completion ContributorMap :=
  allReposPRs ← mapM (fetchPRs octokit) repositories;
  let allPRs := concat allReposPRs in
  let prsByRepo := groupByRepo allPRs in
  detailsList ← mapM (λ '(repo, prNumbers),
                        details ← fetchPRDetails octokit repo prNumbers;
                        Normal (repo, details))
                     (map_to_list prsByRepo);
  let prDetailsByRepo : gmap string (gmap Z PRDetail) := list_to_map detailsList in
  Normal (processWeeklyPRs lastWeekDate prDetailsByRepo allPRs).

(** ** Notions used to state the properties *)

(** The PR was created in the inclusive range. *)
Definition inRange (start end_ : Z) (pr : PullRequest) : bool :=
  isBetween (created_at pr) start end_.

(** The PR was created in the range by [contributor]. *)
Definition newBy (start end_ : Z) (contributor : string) (pr : PullRequest) : bool :=
  inRange start end_ pr && bool_decide (user_login pr = contributor).

(** The PR is counted as merged by the bounded pass. *)
Definition mergedInRange (start end_ : Z) (pr : PullRequest) : bool :=
  inRange start end_ pr && bool_decide (state pr ≠ Open)
  && bool_decide (is_Some (merged_at pr)).

Definition count {A} (p : A → bool) (l : list A) : nat :=
  length (filter (λ x, p x = true) l).


(** What one counted PR does to the record of its author. *)
Definition updateRecord (prDetails : gmap Z PRDetail) (pr : PullRequest)
    (r : Contributor.t) : Contributor.t :=
  let r1 := Contributor.incNewPRs r in
  let r2 := if decide (state pr = Open) then Contributor.incOpenPRs r1
            else match merged_at pr with
                 | Some _ => Contributor.incMergedPRs r1
                 | None => r1
                 end in
  match prDetails !! number pr with
  | Some d => Contributor.setComments (totalComments d) r2
  | None => r2
  end.


(** The three ranking keys of a contributor. *)
Definition rankKeys (m : Weekly.t) : nat * nat * nat :=
  (Weekly.mergedPRsThisWeek m, Weekly.newPRsThisWeek m, Weekly.openPRs m).

(** [a] may stand in front of [b]: its keys are not smaller, read in
    the order merged, new, open. *)
Definition ranksNoLower (a b : Weekly.t) : Prop :=
  (Weekly.mergedPRsThisWeek b < Weekly.mergedPRsThisWeek a)%nat ∨
  (Weekly.mergedPRsThisWeek b = Weekly.mergedPRsThisWeek a ∧
   ((Weekly.newPRsThisWeek b < Weekly.newPRsThisWeek a)%nat ∨
    (Weekly.newPRsThisWeek b = Weekly.newPRsThisWeek a ∧
     (Weekly.openPRs b ≤ Weekly.openPRs a)%nat))).

(** The counters that the state statement of the rolling pass updates. *)
Definition stateCounters (m : Weekly.t) : nat * nat * nat :=
  (Weekly.openPRs m, Weekly.mergedPRsThisWeek m, Weekly.closedPRsThisWeek m).

(** The merge-time samples of a record: how many, and their sum. *)
Definition mergeSamples (m : Weekly.t) : nat * Q :=
  (Weekly.mergedPRCount m, Weekly.totalMergeTime m).

(** What one iteration of the rolling pass does to the record of the
    PR's author. *)
Definition updateWeekly (lastWeekDate : Z)
    (prDetailsByRepo : gmap string (gmap Z PRDetail)) (pr : PullRequest)
    (m : Weekly.t) : Weekly.t :=
  trackComments prDetailsByRepo pr (trackState lastWeekDate pr (trackNew lastWeekDate pr m)).

(** ** generateReport: the whole document *)

(** One row of the contributor table. *)
Definition contributorRow (entry : string * Contributor.t) : string :=
  let '(contributor, stats) := entry in
  "| " ++ contributor ++ " | " ++ showNat (Contributor.newPRs stats) ++ " | "
  ++ showNat (Contributor.mergedPRs stats) ++ " | "
  ++ showNat (Contributor.openPRs stats) ++ " | "
  ++ showNat (Contributor.comments stats) ++ " |".

(** The lines pushed on [report].  [Object_entries] enumerates the own
    properties of the contributor object in their key order; [Object.keys]
    is its first projection. *)
Definition generateReport_lines
    (Object_entries : gmap string Contributor.t → list (string * Contributor.t))
    (metrics : Metrics.t) : list string :=
  let entries := Object_entries (Metrics.contributors metrics) in
  (generateReport_summary metrics ++
   if (length entries.*1 =? 0)%nat then
     ["No activity in the repository during this period."]
   else
     ["## Contributors";
      "| Contributor | New PRs | Merged PRs | Open PRs | Comments |";
      "|------------|----------|------------|-----------|----------|"]
     ++ map contributorRow entries)%list.

(** [report.join('\n')] *)
Definition generateReport
    (Object_entries : gmap string Contributor.t → list (string * Contributor.t))
    (metrics : Metrics.t) : string :=
  String.concat newline (generateReport_lines Object_entries metrics).

(** ** Further notions used to state the properties *)

(** The PR is counted as open by the bounded pass. *)
Definition openInRange (start end_ : Z) (pr : PullRequest) : bool :=
  inRange start end_ pr && bool_decide (state pr = Open).

(** The PR is counted as new by the bounded pass, and as nothing else:
    it is closed and has no merged timestamp. *)
Definition closedUnmergedInRange (start end_ : Z) (pr : PullRequest) : bool :=
  inRange start end_ pr && bool_decide (state pr ≠ Open)
  && bool_decide (merged_at pr = None).

(** The PR is counted as reviewed by the bounded pass. *)
Definition reviewedInRange (start end_ : Z) (prDetails : gmap Z PRDetail)
    (pr : PullRequest) : bool :=
  inRange start end_ pr &&
  match prDetails !! number pr with
  | Some d => (0 <? reviews d)%nat
  | None => false
  end.


(** ** generateWeeklyPRReport: the summary block *)

(** [totalWeeklyActivity] and [overallAvgComments] *)
Definition totalWeeklyActivity (contributorMetrics : ContributorMap) : nat :=
  let totals := totalMetrics contributorMetrics in
  (Weekly.newPRsThisWeek totals + Weekly.mergedPRsThisWeek totals
   + Weekly.closedPRsThisWeek totals)%nat.

Definition overallAvgComments (contributorMetrics : ContributorMap) : string :=
  avgCommentsCell (totalMetrics contributorMetrics).

(** The lines pushed after the table rows. *)
Definition summaryStatistics (contributorMetrics : ContributorMap)
    (repositories : list string) : list string :=
  let totals := totalMetrics contributorMetrics in
  [ newline ++ "## Summary Statistics" ++ newline;
    "- Total Active Contributors: " ++ showNat (length contributorMetrics) ++ newline;
    "- New PRs This Week: " ++ showNat (Weekly.newPRsThisWeek totals) ++ newline;
    "- PRs Merged This Week: " ++ showNat (Weekly.mergedPRsThisWeek totals) ++ newline;
    "- PRs Closed Without Merge This Week: "
      ++ showNat (Weekly.closedPRsThisWeek totals) ++ newline;
    "- Currently Open PRs: " ++ showNat (Weekly.openPRs totals) ++ newline;
    "- Total Weekly PR Activity: "
      ++ showNat (totalWeeklyActivity contributorMetrics) ++ newline;
    "- Average Time to Merge: " ++ overallAvgTimeToMerge contributorMetrics
      ++ " hours" ++ newline;
    "- Average Comments per PR: " ++ overallAvgComments contributorMetrics ++ newline;
    newline ++ "### Repositories Included" ++ newline;
    String.concat newline (map (λ repo, "- " ++ repo) repositories);
    newline ].

(** ** Notions used to state the properties of the rolling pass *)

(** What [fetchPRs] and [fetchPRDetails] are fulfilled with. *)
Definition fetched (octokit : Octokit) (repo : string) : list PullRequest :=
  match fetchPRs octokit repo with
  | Normal prs => prs
  | Throw _ => []
  end.

Definition fetchedDetails (octokit : Octokit) (repo : string) (prNumbers : list Z)
  : gmap Z PRDetail :=
  match fetchPRDetails octokit repo prNumbers with
  | Normal details => details
  | Throw _ => ∅
  end.

(** The PRs of all repositories, in the order of [allPRs]. *)
Definition allFetched (octokit : Octokit) (repositories : list string)
  : list PullRequest :=
  concat (map (fetched octokit) repositories).

(** Sum of [bump] over the PRs of [author]. *)
Definition sumBy (bump : PullRequest → nat) (author : string)
    (prs : list PullRequest) : nat :=
  sum_list (bump <$> filter (λ pr, user_login pr = author) prs).

Definition oneIf (b : bool) : nat := if b then 1%nat else 0%nat.

(** The four ways a PR counts in the rolling pass, and the comments it
    brings. *)
Definition weeklyNew (lastWeekDate : Z) (pr : PullRequest) : bool :=
  bool_decide (lastWeekDate < created_at pr).

Definition weeklyOpen (pr : PullRequest) : bool :=
  bool_decide (state pr = Open).

Definition weeklyMerged (lastWeekDate : Z) (pr : PullRequest) : bool :=
  bool_decide (state pr ≠ Open) &&
  match merged_at pr with
  | Some t => bool_decide (lastWeekDate < t)
  | None => false
  end.

Definition weeklyClosed (lastWeekDate : Z) (pr : PullRequest) : bool :=
  bool_decide (state pr ≠ Open) && bool_decide (merged_at pr = None) &&
  match closed_at pr with
  | Some t => bool_decide (lastWeekDate < t)
  | None => false
  end.

Definition commentsOf (prDetailsByRepo : gmap string (gmap Z PRDetail))
    (pr : PullRequest) : nat :=
  match prDetailsByRepo !! repoName pr with
  | Some repoDetails => default 0%nat (totalComments <$> repoDetails !! number pr)
  | None => 0%nat
  end.

(** Sum of a field over the records of a contributor map. *)
Definition sumWeekly (g : Weekly.t → nat) (cm : ContributorMap) : nat :=
  sum_list (g <$> cm.*2).

(** The details map that [generateWeeklyPRReport] builds for [allPRs]. *)
Definition fetchedDetailsByRepo (octokit : Octokit) (allPRs : list PullRequest)
  : gmap string (gmap Z PRDetail) :=
  list_to_map
    ((λ '(repo, prNumbers), (repo, fetchedDetails octokit repo prNumbers))
       <$> map_to_list (groupByRepo allPRs)).

(** ** String operations of the JavaScript library

    Strings are sequences of one-byte characters; the white space that
    [trim] removes is the ASCII white space. *)

(** [s.split(sep)] for a one-character separator. *)
Fixpoint String_split (sep : Ascii.ascii) (s : string) : list string :=
  match s with
  | EmptyString => [EmptyString]
  | String c rest =>
      if decide (c = sep) then EmptyString :: String_split sep rest
      else match String_split sep rest with
           | [] => [String c EmptyString]
           | l :: ls => String c l :: ls
           end
  end.

(** [s.includes(needle)] *)
Fixpoint String_includes (needle s : string) : bool :=
  String.prefix needle s ||
  match s with
  | EmptyString => false
  | String _ rest => String_includes needle rest
  end.




(** The characters of a string. *)
Fixpoint chars (s : string) : list Ascii.ascii :=
  match s with
  | EmptyString => []
  | String c rest => c :: chars rest
  end.

Definition linefeed : Ascii.ascii := Ascii.ascii_of_nat 10.
Definition dquote : string := String (Ascii.ascii_of_nat 34) EmptyString.

(** ** Configuration read when the module is loaded *)



(** ** Cron setup *)

Definition cronCommand (scriptPath : string) : string :=
  "0 9 * * 6 /usr/local/bin/node " ++ scriptPath.

(** What the callback of [exec] receives. *)
Record ExecResult := {
  exec_error : option string;
  exec_stdout : string;
  exec_stderr : string
}.

(** The crontab text that [setupCronJob] builds from the output of
    [crontab -l]. *)
Definition newCrontab (scriptPath stdout : string) : string :=
  let currentCrontab :=
    String.concat newline
      (filter (λ line, String_includes scriptPath line = false)
              (String_split linefeed stdout)) in
  currentCrontab ++ (if bool_decide (currentCrontab = "") then "" else newline)
  ++ cronCommand scriptPath ++ newline.

Definition writeCommand (scriptPath stdout : string) : string :=
  "echo " ++ dquote ++ newCrontab scriptPath stdout ++ dquote ++ " | crontab -".

(** [setupCronJob]: the outcome of the promise and the commands passed to
    [exec], in order. *)
Definition setupCronJob (scriptPath : string) (exec : string → ExecResult)
  : Completion unit * list string :=
  let listed := exec "crontab -l" in
  match exec_error listed with
  | Some error =>
      if negb (String_includes "no crontab" (exec_stderr listed))
      then (Throw error, ["crontab -l"])
      else
        let command := writeCommand scriptPath (exec_stdout listed) in
        match exec_error (exec command) with
        | Some error' => (Throw error', ["crontab -l"; command])
        | None => (Normal (), ["crontab -l"; command])
        end
  | None =>
      let command := writeCommand scriptPath (exec_stdout listed) in
      match exec_error (exec command) with
      | Some error' => (Throw error', ["crontab -l"; command])
      | None => (Normal (), ["crontab -l"; command])
      end
  end.

(** ** Paths, the file system and the report file

    A path is the list of its segments below the working directory;
    [path.join] appends a segment.  A [moment] is used here through its
    [format] method only, a function from format strings to text, whose
    results hold no path separator.  The file system is the set of its
    directories and the map of its regular files. *)

Definition path_join (dir : list string) (name : string) : list string :=
  (dir ++ [name])%list.

Definition REPORTS_BASE_DIR : list string := ["reports"].

Record FileSystem := {
  dirs : gset (list string);
  files : gmap (list string) string
}.

Definition existsSync (fs : FileSystem) (p : list string) : bool :=
  bool_decide (p ∈ dirs fs) || bool_decide (is_Some (files fs !! p)).

(** The directories above [p]: its proper, non-empty prefixes. *)
Definition ancestors (p : list string) : list (list string) :=
  (λ n, take n p) <$> seq 1 (length p - 1).

(** [fs.mkdirSync(p, { recursive: true })]: creates [p] and the missing
    directories above it; fails when a regular file is in the way. *)
Definition mkdirSync_recursive (p : list string) (fs : FileSystem)
  : Completion FileSystem :=
  let chain := (ancestors p ++ [p])%list in
  if bool_decide (Exists (λ q, is_Some (files fs !! q)) chain)
  then Throw "EEXIST"
  else Normal {| dirs := dirs fs ∪ list_to_set chain; files := files fs |}.

(** [fs.writeFileSync(p, data)]: creates or replaces the file; fails on a
    directory and when a directory above [p] is missing. *)
Definition writeFileSync (p : list string) (data : string) (fs : FileSystem)
  : Completion FileSystem :=
  if bool_decide (p ∈ dirs fs) then Throw "EISDIR"
  else if bool_decide (Forall (λ q, q ∈ dirs fs) (ancestors p))
  then Normal {| dirs := dirs fs; files := <[p := data]> (files fs) |}
  else Throw "ENOENT".

(** The [forEach] of [ensureReportDirectories]. *)
Fixpoint forEach_ensure (paths : list (list string)) (fs : FileSystem)
  : Completion FileSystem :=
  match paths with
  | [] => Normal fs
  | dir :: rest =>
      fs' ← (if negb (existsSync fs dir) then mkdirSync_recursive dir fs
             else Normal fs);
      forEach_ensure rest fs'
  end.

Definition ensureReportDirectories (date : string → string) (fs : FileSystem)
  : Completion (list string * FileSystem) :=
  let year := date "YYYY" in
  let month := date "MM-MMMM" in
  let yearDir := path_join REPORTS_BASE_DIR year in
  let monthDir := path_join yearDir month in
  fs' ← forEach_ensure [REPORTS_BASE_DIR; yearDir; monthDir] fs;
  Normal (monthDir, fs').

Definition getReportFilename (date : string → string) : string :=
  "weekly-report-" ++ date "YYYY-MM-DD" ++ ".md".

(** ** generateWeeklyPRReport: the document and the run *)

(** The initial value of [reportLines]. *)
Definition reportHeader (lastWeekDate now : string → string) : list string :=
  [ "# Weekly Development Metrics Report (" ++ lastWeekDate "M/D/YYYY" ++ " - "
      ++ now "M/D/YYYY" ++ ")" ++ newline;
    newline ++ "## Understanding the Metrics" ++ newline;
    "- **New PRs**: Pull requests created during this week" ++ newline;
    "- **Merged PRs**: Pull requests merged during this week" ++ newline;
    "- **Open PRs**: Pull requests currently open (not merged/closed)" ++ newline;
    "- **Closed PRs**: Pull requests closed without merging this week" ++ newline;
    "- **Avg Time to Merge**: Average time (in hours) from PR creation to merge"
      ++ newline;
    "- **Avg Comments**: Average number of comments per PR" ++ newline;
    newline ++ "### Additional Context" ++ newline;
    "- The report covers activity from the past 7 days" ++ newline;
    "- " ++ dquote ++ "Open PRs" ++ dquote
      ++ " shows current workload (may include PRs from previous weeks)" ++ newline;
    "- " ++ dquote ++ "New PRs" ++ dquote ++ " + " ++ dquote ++ "Merged PRs" ++ dquote
      ++ " + " ++ dquote ++ "Closed PRs" ++ dquote ++ " shows this week's changes"
      ++ newline;
    "- Time to merge helps identify review process efficiency" ++ newline;
    newline ++ "## Contributor Metrics" ++ newline;
    "> Contributors are ranked by: 1) Number of Merged PRs, 2) Number of New PRs, 3) Number of Open PRs"
      ++ newline ++ newline;
    "| Contributor | New PRs | Merged PRs | Open PRs | Closed PRs | Avg Time to Merge (h) | Avg Comments |"
      ++ newline;
    "|------------|----------|------------|-----------|------------|---------------------|-------------|"
      ++ newline ].

(** [reportLines.join('')] after the rows and the summary are pushed. *)
Definition weeklyReport (lastWeekDate now : string → string)
    (contributorMetrics : ContributorMap) (repositories : list string) : string :=
  String.concat ""
    (reportHeader lastWeekDate now ++ tableRows contributorMetrics
     ++ summaryStatistics contributorMetrics repositories)%list.

(** How the process ends: the function returns, or [process.exit] is
    called. *)
Inductive ProcessResult :=
  | Finished (fs : FileSystem)
  | Exited (code : Z).

(** [generateWeeklyPRReport].  [lastWeekDate] is the window start, with
    [lastWeekFormat] its [format] method; [currentDate] and [headerNow] are
    the [format] methods of the two moments taken from the clock. *)
Definition generateWeeklyPRReport (octokit : Octokit) (repositories : list string)
    (lastWeekDate : Z) (lastWeekFormat currentDate headerNow : string → string)
    (fs : FileSystem) : ProcessResult :=
  let body : Completion FileSystem :=
    contributorMetrics ← weeklyContributorMetrics octokit repositories lastWeekDate;
    let report :=
      weeklyReport lastWeekFormat headerNow contributorMetrics repositories in
    '(reportDir, fs') ← ensureReportDirectories currentDate fs;
    let reportPath := path_join reportDir (getReportFilename currentDate) in
    writeFileSync reportPath report fs' in
  match body with
  | Normal fs' => Finished fs'
  | Throw _ => Exited 1
  end.

(** The counters and merge-time accumulators of the bounded pass, which
    do not look at the PR details. *)
Definition coreCounters (st : LoopState) : nat * nat * nat * Q * nat :=
  (newPRs st, mergedPRs st, openPRs st, totalMergeTime st, mergedCount st).

Definition contributorCounters (r : Contributor.t) : nat * nat * nat :=
  (Contributor.newPRs r, Contributor.mergedPRs r, Contributor.openPRs r).

(** ** Sample data: the end-to-end scenario of the test suite *)

Module Sample.
(** 2024-02-01T00:00Z, 2024-02-07T00:00Z, 2024-02-01T10:00Z and
    2024-02-02T10:00Z in epoch milliseconds. *)
Definition startDate : Z := 1706745600000.
Definition endDate : Z := 1707264000000.
Definition feb1_10h : Z := 1706781600000.
Definition feb2_10h : Z := 1706868000000.

Definition pr1 : PullRequest :=
  {| number := 1; repoName := ""; state := Open; user_login := "user1";
     created_at := feb1_10h; merged_at := None; closed_at := None;
     updated_at := feb1_10h + 3600000 |}.

Definition pr2 : PullRequest :=
  {| number := 2; repoName := ""; state := Closed; user_login := "user2";
     created_at := feb1_10h; merged_at := Some feb2_10h;
     closed_at := Some feb2_10h; updated_at := feb2_10h |}.

(** PR 2 has one approving review; the comment request for PR 123 is
    rejected. *)
Definition octokit : Octokit :=
  {| pulls_list := λ _, Normal [pr1; pr2];
     issues_listComments := λ _ n,
       if n =? 123 then Throw "Not Found" else Normal [];
     pulls_listReviewComments := λ _ _, Normal [];
     pulls_listReviews := λ _ n,
       if n =? 2 then Normal [ {| review_state := "APPROVED" |} ] else Normal [] |}.

(** The [format] method of a moment on 2024-02-01, for the formats that
    the code asks for. *)
Definition feb1 (fmt : string) : string :=
  if bool_decide (fmt = "YYYY") then "2024"
  else if bool_decide (fmt = "MM-MMMM") then "02-February"
  else if bool_decide (fmt = "YYYY-MM-DD") then "2024-02-01"
  else "2/1/2024".

Definition emptyFileSystem : FileSystem := {| dirs := ∅; files := ∅ |}.

(** The sample client with every detail request rejected. *)
Definition noDetails : Octokit :=
  {| pulls_list := λ _, Normal [pr1; pr2];
     issues_listComments := λ _ _, Throw "rate limit";
     pulls_listReviewComments := λ _ _, Throw "rate limit";
     pulls_listReviews := λ _ _, Throw "rate limit" |}.

(** A client whose every request is rejected. *)
Definition offline : Octokit :=
  {| pulls_list := λ _, Throw "ECONNREFUSED";
     issues_listComments := λ _ _, Throw "ECONNREFUSED";
     pulls_listReviewComments := λ _ _, Throw "ECONNREFUSED";
     pulls_listReviews := λ _ _, Throw "ECONNREFUSED" |}.
End Sample.

(** * Properties *)

Section FetchDetails.
Context (octokit : Octokit) (repo : string).

Lemma fetchLoop_step n rest details :
  fetchLoop octokit repo (n :: rest) details =
  fetchLoop octokit repo rest (<[n := storedDetail octokit repo n]> details).
Proof.
  simpl. unfold storedDetail.
  destruct (detailOf octokit repo n); reflexivity.
Qed.

Lemma fetchLoop_normal nums : ∀ details,
  fetchLoop octokit repo nums details =
  Normal (foldl (λ acc n, <[n := storedDetail octokit repo n]> acc) details nums).
Proof.
  induction nums as [|n rest IH]; intros details; [reflexivity|].
  rewrite fetchLoop_step, IH. reflexivity.
Qed.

Lemma foldl_store_lookup nums : ∀ (details : gmap Z PRDetail) m,
  foldl (λ acc n, <[n := storedDetail octokit repo n]> acc) details nums !! m =
  if bool_decide (m ∈ nums) then Some (storedDetail octokit repo m)
  else details !! m.
Proof.
  induction nums as [|n rest IH]; intros details m; cbn [foldl].
  - case_bool_decide as H; [by apply elem_of_nil in H|done].
  - rewrite IH. case_bool_decide as H1; case_bool_decide as H2; try done.
    + exfalso. apply H2. by right.
    + apply elem_of_cons in H2 as [->|?]; [|done]. by rewrite lookup_insert_eq.
    + rewrite lookup_insert_ne; [done|]. intros ->. apply H2. by left.
Qed.
End FetchDetails.

Lemma fetchPRDetails_lookup octokit repo nums :
  ∃ details, fetchPRDetails octokit repo nums = Normal details ∧
    ∀ m, details !! m =
      if bool_decide (m ∈ nums) then Some (storedDetail octokit repo m) else None.
Proof.
  unfold fetchPRDetails. rewrite fetchLoop_normal. eexists; split; [done|].
  intros m. rewrite foldl_store_lookup. by rewrite lookup_empty.
Qed.

Lemma storedDetail_sameAnswers o1 o2 repo n :
  sameAnswers o1 o2 repo n → storedDetail o1 repo n = storedDetail o2 repo n.
Proof.
  intros (H1 & H2 & H3). unfold storedDetail, detailOf. by rewrite H1, H2, H3.
Qed.

(** C8.  [fetchPRDetails] never throws: it is fulfilled with a map that has
    exactly the requested numbers as keys; a number whose fetch fails is
    mapped to the all-zero record, any other one to the counts of its own
    three answers; and an entry depends only on the answers for its own
    number, so a failure for one number leaves the other entries as they
    are. *)
Theorem fetchPRDetails_isolated (octokit : Octokit) (repo : string) (prNumbers : list Z) :
  ∃ details,
    fetchPRDetails octokit repo prNumbers = Normal details ∧
    dom details = list_to_set prNumbers ∧
    (∀ n, n ∈ prNumbers → fetchFails octokit repo n →
       details !! n =
       Some {| totalComments := 0; reviewComments := 0; discussionComments := 0;
               reviews := 0; approvals := 0; changesRequested := 0 |}) ∧
    (∀ n d, n ∈ prNumbers → detailOf octokit repo n = Normal d →
       details !! n = Some d) ∧
    (∀ octokit' details' m,
       fetchPRDetails octokit' repo prNumbers = Normal details' →
       sameAnswers octokit octokit' repo m →
       details' !! m = details !! m).
Proof.
  destruct (fetchPRDetails_lookup octokit repo prNumbers) as (details & Hrun & Hlk).
  exists details. split; [done|]. repeat split.
  - apply set_eq. intros m. rewrite elem_of_dom, elem_of_list_to_set, Hlk.
    case_bool_decide as Hm.
    + split; [done|]. intros _. by eexists.
    + split; [|done]. by intros [? ?].
  - intros n Hin [e He]. rewrite Hlk, bool_decide_eq_true_2 by done.
    unfold storedDetail. by rewrite He.
  - intros n d Hin Hd. rewrite Hlk, bool_decide_eq_true_2 by done.
    unfold storedDetail. by rewrite Hd.
  - intros o' details' m Hrun' Hsame.
    destruct (fetchPRDetails_lookup o' repo prNumbers) as (d2 & Hrun2 & Hlk2).
    rewrite Hrun' in Hrun2. injection Hrun2 as <-.
    rewrite Hlk, Hlk2. case_bool_decide; [|done].
    f_equal. symmetry. by apply storedDetail_sameAnswers.
Qed.

(** ** Bounded-range mode *)

Lemma calculatePRMetrics_run octokit repo startDate endDate :
  ∃ prs prDetails,
    fetchPRs octokit repo = Normal prs ∧
    fetchPRDetails octokit repo (map number prs) = Normal prDetails ∧
    (∀ pr, pr ∈ prs → prDetails !! number pr = Some (storedDetail octokit repo (number pr))) ∧
    calculatePRMetrics octokit repo startDate endDate =
      Normal (finalize (processPRs startDate endDate prDetails prs)).
Proof.
  assert (∃ prs, fetchPRs octokit repo = Normal prs) as [prs Hprs].
  { unfold fetchPRs. destruct (pulls_list octokit repo); by eexists. }
  destruct (fetchPRDetails_lookup octokit repo (map number prs)) as (D & HD & Hlk).
  exists prs, D. repeat split; [done|done| |].
  - intros pr Hin. rewrite Hlk, bool_decide_eq_true_2; [done|].
    apply list_elem_of_fmap. by exists pr.
  - unfold calculatePRMetrics. rewrite Hprs. cbn. by rewrite HD.
Qed.

Section Bounded.
Context (start end_ : Z) (prDetails : gmap Z PRDetail).

Local Abbreviation step := (processPR start end_ prDetails).
Local Abbreviation run := (processPRs start end_ prDetails).

Lemma processPR_out st pr :
  inRange start end_ pr = false → step st pr = st.
Proof. unfold processPR, inRange. by intros ->. Qed.

Lemma processPR_in st pr :
  inRange start end_ pr = true →
  step st pr =
  recordDetails prDetails pr (user_login pr)
    (countState pr (user_login pr) (countNew (user_login pr) st)).
Proof. unfold processPR, inRange. by intros ->. Qed.

Lemma run_snoc prs pr : run (prs ++ [pr]) = step (run prs) pr.
Proof. unfold processPRs. by rewrite foldl_snoc. Qed.

Lemma foldl_processPR_filter prs : ∀ st,
  foldl step st prs =
  foldl step st (filter (λ pr, inRange start end_ pr = true) prs).
Proof.
  induction prs as [|pr prs IH]; intros st; [done|].
  rewrite filter_cons. case_decide as Hin; cbn [foldl].
  - apply IH.
  - rewrite processPR_out by by destruct (inRange start end_ pr). apply IH.
Qed.

(** Counters. *)
Lemma countNew_fields c st :
  newPRs (countNew c st) = S (newPRs st) ∧
  mergedPRs (countNew c st) = mergedPRs st ∧
  openPRs (countNew c st) = openPRs st ∧
  mergedCount (countNew c st) = mergedCount st ∧
  totalMergeTime (countNew c st) = totalMergeTime st.
Proof. done. Qed.

Lemma recordDetails_fields pr c st :
  newPRs (recordDetails prDetails pr c st) = newPRs st ∧
  mergedPRs (recordDetails prDetails pr c st) = mergedPRs st ∧
  openPRs (recordDetails prDetails pr c st) = openPRs st ∧
  mergedCount (recordDetails prDetails pr c st) = mergedCount st ∧
  totalMergeTime (recordDetails prDetails pr c st) = totalMergeTime st.
Proof.
  unfold recordDetails. destruct (prDetails !! number pr) as [d|]; [|done].
  by destruct (0 <? reviews d)%nat.
Qed.

Lemma countState_newPRs pr c st : newPRs (countState pr c st) = newPRs st.
Proof.
  unfold countState. case_decide; [done|]. by destruct (merged_at pr).
Qed.

Lemma processPR_newPRs st pr :
  newPRs (step st pr) =
  (newPRs st + if inRange start end_ pr then 1 else 0)%nat.
Proof.
  destruct (inRange start end_ pr) eqn:Hin.
  - rewrite processPR_in by done.
    destruct (recordDetails_fields pr (user_login pr)
      (countState pr (user_login pr) (countNew (user_login pr) st))) as (-> & _).
    rewrite countState_newPRs. cbn. lia.
  - rewrite processPR_out by done. lia.
Qed.

Lemma run_newPRs prs : newPRs (run prs) = count (inRange start end_) prs.
Proof.
  induction prs as [|pr prs IH] using rev_ind; [done|].
  rewrite run_snoc, processPR_newPRs, IH. unfold count.
  rewrite filter_app, length_app, filter_cons, filter_nil.
  destruct (inRange start end_ pr); case_decide; cbn; done || lia.
Qed.

Lemma processPR_mergedCount st pr :
  mergedCount (step st pr) =
  (mergedCount st + if mergedInRange start end_ pr then 1 else 0)%nat ∧
  mergedPRs (step st pr) =
  (mergedPRs st + if mergedInRange start end_ pr then 1 else 0)%nat.
Proof.
  unfold mergedInRange. destruct (inRange start end_ pr) eqn:Hin.
  - rewrite processPR_in by done.
    destruct (recordDetails_fields pr (user_login pr)
      (countState pr (user_login pr) (countNew (user_login pr) st)))
      as (_ & -> & _ & -> & _).
    unfold countState. case_decide as Hopen.
    + rewrite bool_decide_eq_false_2 by naive_solver. cbn. lia.
    + rewrite bool_decide_eq_true_2 by done.
      destruct (merged_at pr); cbn; lia.
  - rewrite processPR_out by done. cbn. lia.
Qed.

Lemma run_mergedCount prs :
  mergedCount (run prs) = count (mergedInRange start end_) prs ∧
  mergedPRs (run prs) = count (mergedInRange start end_) prs.
Proof.
  induction prs as [|pr prs [IH1 IH2]] using rev_ind; [done|].
  rewrite run_snoc.
  destruct (processPR_mergedCount (run prs) pr) as [-> ->].
  rewrite IH1, IH2. unfold count.
  rewrite filter_app, length_app, filter_cons, filter_nil.
  destruct (mergedInRange start end_ pr); case_decide; cbn; done || lia.
Qed.

(** Every counted PR is new, and at most one of open and merged. *)
Lemma processPR_opened_merged st pr :
  (mergedPRs st + openPRs st ≤ newPRs st)%nat →
  (mergedPRs (step st pr) + openPRs (step st pr) ≤ newPRs (step st pr))%nat.
Proof.
  intros Hle. destruct (inRange start end_ pr) eqn:Hin.
  - rewrite processPR_in by done.
    destruct (recordDetails_fields pr (user_login pr)
      (countState pr (user_login pr) (countNew (user_login pr) st)))
      as (-> & -> & -> & _).
    unfold countState. case_decide; [cbn; lia|].
    destruct (merged_at pr); cbn; lia.
  - by rewrite processPR_out.
Qed.

Lemma run_opened_merged prs :
  (mergedPRs (run prs) + openPRs (run prs) ≤ newPRs (run prs))%nat.
Proof.
  induction prs as [|pr prs IH] using rev_ind; [cbn; lia|].
  rewrite run_snoc. by apply processPR_opened_merged.
Qed.
End Bounded.

Lemma inRange_spec start end_ pr :
  inRange start end_ pr = true ↔ start ≤ created_at pr ≤ end_.
Proof. unfold inRange, isBetween, isBefore, isAfter. lia. Qed.

(** *** The contributor object *)



Lemma alter_as_insert (f : Contributor.t → Contributor.t)
    (m : gmap string Contributor.t) k v :
  m !! k = Some v → alter f k m = <[k := f v]> m.
Proof.
  intros Hk. apply map_eq. intros j. rewrite lookup_alter, lookup_insert.
  case_decide; [subst; by rewrite Hk|done].
Qed.


Lemma countNew_contributors c st :
  contributors (countNew c st) =
  <[c := Contributor.incNewPRs (default Contributor.zero (contributors st !! c))]>
    (contributors st).
Proof.
  unfold countNew; cbn. destruct (contributors st !! c) as [v|] eqn:Hc; cbn.
  - by apply alter_as_insert.
  - by rewrite alter_insert_eq.
Qed.

Lemma countState_contributors pr c st :
  contributors (countState pr c st) =
  if decide (state pr = Open) then alter Contributor.incOpenPRs c (contributors st)
  else match merged_at pr with
       | Some _ => alter Contributor.incMergedPRs c (contributors st)
       | None => contributors st
       end.
Proof. unfold countState. case_decide; [done|]. by destruct (merged_at pr). Qed.

Lemma recordDetails_contributors prDetails pr c st :
  contributors (recordDetails prDetails pr c st) =
  match prDetails !! number pr with
  | Some d => alter (Contributor.setComments (totalComments d)) c (contributors st)
  | None => contributors st
  end.
Proof.
  unfold recordDetails. destruct (prDetails !! number pr) as [d|]; [|done].
  by destruct (0 <? reviews d)%nat.
Qed.

Section BoundedContributors.
Context (start end_ : Z) (prDetails : gmap Z PRDetail).

Local Abbreviation step := (processPR start end_ prDetails).
Local Abbreviation run := (processPRs start end_ prDetails).

Lemma processPR_contributors st pr c :
  contributors (step st pr) !! c =
  if newBy start end_ c pr
  then Some (updateRecord prDetails pr (default Contributor.zero (contributors st !! c)))
  else contributors st !! c.
Proof.
  unfold newBy. destruct (inRange start end_ pr) eqn:Hin; cbn [andb].
  2: { by rewrite processPR_out. }
  rewrite processPR_in, recordDetails_contributors, countState_contributors,
    countNew_contributors by done.
  unfold updateRecord. case_bool_decide as Hc.
  - subst c.
    destruct (prDetails !! number pr); case_decide; try destruct (merged_at pr);
      by rewrite ?lookup_alter_eq, lookup_insert_eq.
  - destruct (prDetails !! number pr); case_decide; try destruct (merged_at pr);
      by rewrite ?lookup_alter_ne, lookup_insert_ne by done.
Qed.



Lemma count_snoc {A} (p : A → bool) l x :
  count p (l ++ [x]) = (count p l + if p x then 1 else 0)%nat.
Proof.
  unfold count. rewrite filter_app, length_app, filter_cons, filter_nil.
  destruct (p x); case_decide; cbn; done || lia.
Qed.





End BoundedContributors.

Lemma foldl_processPR_ext start end_ (D1 D2 : gmap Z PRDetail) prs :
  (∀ pr, pr ∈ prs → inRange start end_ pr = true →
         D1 !! number pr = D2 !! number pr) →
  ∀ st, foldl (processPR start end_ D1) st prs = foldl (processPR start end_ D2) st prs.
Proof.
  induction prs as [|pr prs IH]; intros Hagree st; [done|]. cbn [foldl].
  assert (processPR start end_ D1 st pr = processPR start end_ D2 st pr) as ->.
  { destruct (inRange start end_ pr) eqn:Hin.
    - rewrite !processPR_in by done. unfold recordDetails.
      rewrite (Hagree pr) by (done || left). done.
    - by rewrite !processPR_out. }
  apply IH. intros pr' Hin'. apply Hagree. by right.
Qed.





(** C4.  A PR created outside [startDate, endDate] leaves the whole loop
    state as it is: the three counters, the four accumulators and the
    contributor object, in which no key appears.  So the pass over a list
    equals the pass over its PRs created in the range, and
    [calculatePRMetrics] returns the same metrics whether or not the
    fetched list holds the PRs created outside the range. *)
Theorem out_of_range_PR_counts_nowhere (startDate endDate : Z) :
  (∀ prDetails st pr,
     ¬ (startDate ≤ created_at pr ≤ endDate) →
     processPR startDate endDate prDetails st pr = st) ∧
  (∀ prDetails prs,
     processPRs startDate endDate prDetails prs =
     processPRs startDate endDate prDetails
       (filter (λ pr, startDate ≤ created_at pr ≤ endDate) prs)) ∧
  (∀ octokit octokit' repo prs,
     pulls_list octokit repo = Normal prs →
     pulls_list octokit' repo =
       Normal (filter (λ pr, startDate ≤ created_at pr ≤ endDate) prs) →
     (∀ n, sameAnswers octokit octokit' repo n) →
     calculatePRMetrics octokit repo startDate endDate =
     calculatePRMetrics octokit' repo startDate endDate).
Proof.
  assert (∀ prDetails prs,
     processPRs startDate endDate prDetails prs =
     processPRs startDate endDate prDetails
       (filter (λ pr, startDate ≤ created_at pr ≤ endDate) prs)) as Hfilter.
  { intros D prs. unfold processPRs. rewrite foldl_processPR_filter.
    f_equal. apply list_filter_iff. intros pr. apply inRange_spec. }
  split; [|split; [done|]].
  - intros D st pr Hout. apply processPR_out.
    destruct (inRange startDate endDate pr) eqn:Hin; [|done].
    by apply inRange_spec in Hin.
  - intros o o' repo prs Hlist Hlist' Hsame.
    destruct (calculatePRMetrics_run o repo startDate endDate)
      as (prs1 & D1 & Hprs1 & _ & HD1 & ->).
    destruct (calculatePRMetrics_run o' repo startDate endDate)
      as (prs2 & D2 & Hprs2 & _ & HD2 & ->).
    unfold fetchPRs in Hprs1, Hprs2. rewrite Hlist in Hprs1. rewrite Hlist' in Hprs2.
    cbn in Hprs1, Hprs2. injection Hprs1 as <-. injection Hprs2 as <-.
    do 2 f_equal. rewrite Hfilter.
    assert (filter (λ pr, startDate ≤ created_at pr ≤ endDate) (map (tagRepo repo) prs)
            = map (tagRepo repo)
                (filter (λ pr, startDate ≤ created_at pr ≤ endDate) prs)) as ->.
    { clear. induction prs as [|pr prs IH]; [done|].
      cbn [map]. rewrite !filter_cons. cbn [tagRepo created_at].
      case_decide; cbn [map]; by rewrite IH. }
    unfold processPRs. apply foldl_processPR_ext.
    intros pr Hin _. rewrite HD2 by done.
    rewrite HD1.
    + f_equal. by apply storedDetail_sameAnswers.
    + apply list_elem_of_fmap in Hin as (pr0 & -> & Hin0).
      apply list_elem_of_fmap. exists pr0. split; [done|].
      by apply list_elem_of_filter in Hin0 as [_ ?].
Qed.

(** C5, the counterexample.  No client, repository and range make
    [calculatePRMetrics] return metrics with more merged and open PRs than
    new PRs. *)
Lemma merged_plus_open_never_exceeds_new :
  ¬ ∃ octokit repo startDate endDate metrics,
      calculatePRMetrics octokit repo startDate endDate = Normal metrics ∧
      (Metrics.newPRs metrics < Metrics.mergedPRs metrics + Metrics.openPRs metrics)%nat.
Proof.
  intros (o & repo & s & e & m & Hm & Hlt).
  destruct (calculatePRMetrics_run o repo s e) as (prs & D & _ & _ & _ & Hrun).
  rewrite Hrun in Hm. injection Hm as <-. cbn in Hlt.
  pose proof (run_opened_merged s e D prs). lia.
Qed.

(** C5 as amended.  In bounded-range mode the open and merged counters are
    updated only for PRs counted as new, and for each at most one of them:
    [mergedPRs + openPRs ≤ newPRs] after every pass and in every returned
    metrics object. *)
Theorem merged_plus_open_bounded_by_new :
  (∀ startDate endDate prDetails prs,
     let st := processPRs startDate endDate prDetails prs in
     (mergedPRs st + openPRs st ≤ newPRs st)%nat) ∧
  (∀ octokit repo startDate endDate,
     ∃ metrics,
       calculatePRMetrics octokit repo startDate endDate = Normal metrics ∧
       (Metrics.mergedPRs metrics + Metrics.openPRs metrics
        ≤ Metrics.newPRs metrics)%nat).
Proof.
  split.
  - intros s e D prs. apply run_opened_merged.
  - intros o repo s e.
    destruct (calculatePRMetrics_run o repo s e) as (prs & D & _ & _ & _ & Hrun).
    eexists. split; [done|]. cbn. apply run_opened_merged.
Qed.



(** ** Averages *)

Lemma numQ_nonzero n : (0 < n)%nat → Qeq_bool (numQ n) 0 = false.
Proof.
  intros Hn. destruct (Qeq_bool (numQ n) 0) eqn:E; [|done].
  apply Qeq_bool_eq in E. unfold numQ, Qeq in E. cbn in E. lia.
Qed.

Lemma Number_div_finite x n :
  (0 < n)%nat → Number_div x (numQ n) = Finite (x / numQ n).
Proof. intros Hn. unfold Number_div. by rewrite numQ_nonzero. Qed.


Lemma avgTimeToMergeCell_zero m :
  Weekly.mergedPRCount m = 0%nat → avgTimeToMergeCell m = "0.0".
Proof. unfold avgTimeToMergeCell. by intros ->. Qed.


(** ** Rolling-week mode *)

(** *** The state statement *)

Lemma mergedThisWeek_Some lastWeekDate pr t :
  mergedThisWeek lastWeekDate pr = Some t ↔ merged_at pr = Some t ∧ lastWeekDate < t.
Proof.
  unfold mergedThisWeek, isAfter. destruct (merged_at pr) as [t'|].
  - destruct (lastWeekDate <? t') eqn:E.
    + apply Z.ltb_lt in E. split; [intros [= ->]|intros [[= ->] _]]; done.
    + apply Z.ltb_ge in E. split; [done|]. intros [[= ->] ?]. lia.
  - split; [done|]. by intros [? _].
Qed.

Lemma mergedThisWeek_None lastWeekDate pr :
  mergedThisWeek lastWeekDate pr = None ↔
  ¬ ∃ t, merged_at pr = Some t ∧ lastWeekDate < t.
Proof.
  split.
  - intros Hnone (t & Ht). apply mergedThisWeek_Some in Ht. congruence.
  - intros Hno. destruct (mergedThisWeek lastWeekDate pr) as [t|] eqn:E; [|done].
    exfalso. apply Hno. exists t. by apply mergedThisWeek_Some.
Qed.

Lemma closedThisWeek_true lastWeekDate pr :
  closedThisWeek lastWeekDate pr = true ↔
  merged_at pr = None ∧ ∃ t, closed_at pr = Some t ∧ lastWeekDate < t.
Proof.
  unfold closedThisWeek, isAfter. destruct (closed_at pr) as [t|].
  - rewrite andb_true_iff, negb_true_iff, bool_decide_eq_false, Z.ltb_lt.
    rewrite <-eq_None_not_Some. split.
    + intros [? ?]. split; [done|]. by exists t.
    + intros [? (t' & [= ->] & ?)]. done.
  - split; [done|]. by intros [_ (t & ? & _)].
Qed.

Lemma trackState_cases (lastWeekDate : Z) (pr : PullRequest) (m : Weekly.t) :
  let m' := trackState lastWeekDate pr m in
  let isOpen := state pr = Open in
  let mergedInWeek := ∃ t, merged_at pr = Some t ∧ lastWeekDate < t in
  let closedInWeek :=
    merged_at pr = None ∧ ∃ t, closed_at pr = Some t ∧ lastWeekDate < t in
  let '(o, mg, cl) := stateCounters m in
  (isOpen ∧
     m' = Weekly.incOpen m ∧ stateCounters m' = (S o, mg, cl)) ∨
  (¬ isOpen ∧ mergedInWeek ∧ ¬ closedInWeek ∧
     (∃ t, merged_at pr = Some t ∧
           m' = Weekly.addMerge (diff_hours t (created_at pr) false) m) ∧
     stateCounters m' = (o, S mg, cl)) ∨
  (¬ isOpen ∧ ¬ mergedInWeek ∧ closedInWeek ∧
     m' = Weekly.incClosed m ∧ stateCounters m' = (o, mg, S cl)) ∨
  (¬ isOpen ∧ ¬ mergedInWeek ∧ ¬ closedInWeek ∧
     m' = m ∧ stateCounters m' = (o, mg, cl)).
Proof.
  cbn zeta. unfold stateCounters at 1. unfold trackState.
  destruct (decide (state pr = Open)) as [Hopen|Hopen].
  { left. done. }
  right.
  destruct (mergedThisWeek lastWeekDate pr) as [t|] eqn:Hm.
  { left. apply mergedThisWeek_Some in Hm as [Hm Ht].
    split; [done|]. split; [by exists t|]. split.
    - intros [Hnone _]. congruence.
    - split; [by exists t|done]. }
  right. apply mergedThisWeek_None in Hm.
  destruct (closedThisWeek lastWeekDate pr) eqn:Hc.
  { left. apply closedThisWeek_true in Hc. done. }
  right. repeat split; try done.
  intros Hclosed. apply closedThisWeek_true in Hclosed. congruence.
Qed.

(** *** The contributor map *)

Lemma Map_get_set a k v (m : ContributorMap) :
  Map_get a (Map_set k v m) = if decide (a = k) then Some v else Map_get a m.
Proof.
  induction m as [|[k' v'] m IH]; cbn.
  - by destruct (decide (a = k)).
  - destruct (decide (k = k')) as [->|Hk]; cbn.
    + by destruct (decide (a = k')).
    + rewrite IH. destruct (decide (a = k')) as [->|]; [|done].
      by rewrite decide_False.
Qed.

Lemma Forall_Map_set (P : Weekly.t → Prop) k v (m : ContributorMap) :
  Forall (λ e, P e.2) m → P v → Forall (λ e, P e.2) (Map_set k v m).
Proof.
  intros Hm Hv. induction Hm as [|[k' v'] m Hv' Hm IH]; cbn.
  - by constructor.
  - destruct (decide (k = k')); constructor; done.
Qed.

Lemma Forall_Map_get (P : Weekly.t → Prop) k v (m : ContributorMap) :
  Forall (λ e, P e.2) m → Map_get k m = Some v → P v.
Proof.
  intros Hm. induction Hm as [|[k' v'] m Hv' Hm IH]; cbn; [done|].
  destruct (decide (k = k')); [by intros [= <-]|done].
Qed.

Section Rolling.
Context (lastWeekDate : Z) (prDetailsByRepo : gmap string (gmap Z PRDetail)).

Local Abbreviation wstep := (processWeeklyPR lastWeekDate prDetailsByRepo).
Local Abbreviation wrun := (processWeeklyPRs lastWeekDate prDetailsByRepo).
Local Abbreviation update := (updateWeekly lastWeekDate prDetailsByRepo).

Lemma processWeeklyPR_unfold cm pr :
  wstep cm pr =
  let before := default Weekly.zero (Map_get (user_login pr) cm) in
  Map_set (user_login pr) (update pr before)
    (if Map_has (user_login pr) cm then cm
     else Map_set (user_login pr) Weekly.zero cm).
Proof.
  unfold processWeeklyPR, Map_has, updateWeekly.
  destruct (Map_get (user_login pr) cm) as [m|] eqn:Hget; cbn.
  - by rewrite Hget.
  - rewrite Map_get_set, decide_True by done. done.
Qed.

Lemma processWeeklyPR_get cm pr a :
  Map_get a (wstep cm pr) =
  if decide (a = user_login pr)
  then Some (update pr (default Weekly.zero (Map_get a cm)))
  else Map_get a cm.
Proof.
  rewrite processWeeklyPR_unfold. cbn zeta. rewrite Map_get_set.
  destruct (decide (a = user_login pr)) as [->|Hne]; [done|].
  destruct (Map_has (user_login pr) cm); [done|].
  by rewrite Map_get_set, decide_False.
Qed.

Lemma processWeeklyPR_Forall (P : Weekly.t → Prop) cm pr :
  P Weekly.zero → (∀ m, P m → P (update pr m)) →
  Forall (λ e, P e.2) cm → Forall (λ e, P e.2) (wstep cm pr).
Proof.
  intros Hzero Hupd Hcm. rewrite processWeeklyPR_unfold. cbn zeta.
  apply Forall_Map_set.
  - destruct (Map_has (user_login pr) cm); [done|]. by apply Forall_Map_set.
  - apply Hupd. destruct (Map_get (user_login pr) cm) as [m|] eqn:Hget; [|done].
    by eapply Forall_Map_get.
Qed.

Lemma wrun_snoc prs pr : wrun (prs ++ [pr]) = wstep (wrun prs) pr.
Proof. unfold processWeeklyPRs. by rewrite foldl_snoc. Qed.

Lemma processWeeklyPRs_Forall (P : Weekly.t → Prop) prs :
  P Weekly.zero → (∀ pr m, P m → P (update pr m)) →
  Forall (λ e, P e.2) (wrun prs).
Proof.
  intros Hzero Hupd. induction prs as [|pr prs IH] using rev_ind.
  - constructor.
  - rewrite wrun_snoc. apply processWeeklyPR_Forall; auto.
Qed.

Lemma update_stateCounters pr m :
  stateCounters (update pr m) = stateCounters (trackState lastWeekDate pr m).
Proof.
  unfold updateWeekly, trackComments, trackNew, trackState.
  destruct (prDetailsByRepo !! repoName pr) as [repoDetails|];
    [destruct (repoDetails !! number pr)|];
    destruct (isAfter (created_at pr) lastWeekDate);
    case_decide; try done;
    destruct (mergedThisWeek lastWeekDate pr); try done;
    by destruct (closedThisWeek lastWeekDate pr).
Qed.

Lemma update_mergeSamples pr m :
  mergeSamples (update pr m) = mergeSamples (trackState lastWeekDate pr m).
Proof.
  unfold updateWeekly, trackComments, trackNew, trackState.
  destruct (prDetailsByRepo !! repoName pr) as [repoDetails|];
    [destruct (repoDetails !! number pr)|];
    destruct (isAfter (created_at pr) lastWeekDate);
    case_decide; try done;
    destruct (mergedThisWeek lastWeekDate pr); try done;
    by destruct (closedThisWeek lastWeekDate pr).
Qed.
End Rolling.

(** C3.  For every PR, one iteration of the rolling pass touches the
    record of the PR's author only, and does exactly one of four things to
    its state counters, according to four conditions of which exactly one
    holds: the PR is open (no window condition) and only [openPRs] goes up
    by one; else it has a merged timestamp after the window start, and
    [mergedPRsThisWeek] goes up by one with its merge time accumulated;
    else it has no merged timestamp and a closed timestamp after the window
    start, and only [closedPRsThisWeek] goes up by one; else none of the
    three counters changes. *)
Theorem rolling_state_classification
    (lastWeekDate : Z) (prDetailsByRepo : gmap string (gmap Z PRDetail))
    (contributorMetrics : ContributorMap) (pr : PullRequest) :
  let author := user_login pr in
  let before := default Weekly.zero (Map_get author contributorMetrics) in
  let result := processWeeklyPR lastWeekDate prDetailsByRepo contributorMetrics pr in
  let isOpen := state pr = Open in
  let mergedInWeek := ∃ t, merged_at pr = Some t ∧ lastWeekDate < t in
  let closedInWeek :=
    merged_at pr = None ∧ ∃ t, closed_at pr = Some t ∧ lastWeekDate < t in
  ∃ after,
    Map_get author result = Some after ∧
    (∀ other, other ≠ author → Map_get other result = Map_get other contributorMetrics) ∧
    let '(o, mg, cl) := stateCounters before in
    let '(n, total) := mergeSamples before in
    (isOpen ∧
       stateCounters after = (S o, mg, cl) ∧ mergeSamples after = (n, total)) ∨
    (¬ isOpen ∧ mergedInWeek ∧ ¬ closedInWeek ∧
       stateCounters after = (o, S mg, cl) ∧
       ∃ t, merged_at pr = Some t ∧
            mergeSamples after =
              (S n, (total + diff_hours t (created_at pr) false)%Q)) ∨
    (¬ isOpen ∧ ¬ mergedInWeek ∧ closedInWeek ∧
       stateCounters after = (o, mg, S cl) ∧ mergeSamples after = (n, total)) ∨
    (¬ isOpen ∧ ¬ mergedInWeek ∧ ¬ closedInWeek ∧
       stateCounters after = (o, mg, cl) ∧ mergeSamples after = (n, total)).
Proof.
  cbn zeta.
  set (before := default Weekly.zero (Map_get (user_login pr) contributorMetrics)).
  exists (updateWeekly lastWeekDate prDetailsByRepo pr before).
  split; [|split].
  - by rewrite processWeeklyPR_get, decide_True.
  - intros other Hne. by rewrite processWeeklyPR_get, decide_False.
  - rewrite update_stateCounters, update_mergeSamples.
    pose proof (trackState_cases lastWeekDate pr before) as Hcases.
    cbn zeta in Hcases. unfold stateCounters at 1, mergeSamples at 1.
    unfold stateCounters at 1 in Hcases.
    destruct Hcases as [(Ho & -> & Hc)|[(Ho & Hm & Hncl & (t & Ht & ->) & Hc)
                        |[(Ho & Hnm & Hcl & -> & Hc)|(Ho & Hnm & Hncl & -> & Hc)]]].
    + left. done.
    + right; left. repeat (split; [done|]). by exists t.
    + right; right; left. done.
    + right; right; right. done.
Qed.

(** C7.  In rolling-week mode, after any number of PRs processed (so also
    at the end), every contributor record has [mergedPRCount] equal to
    [mergedPRsThisWeek]: one iteration either leaves both as they are or
    adds one to each. *)
Theorem mergedPRCount_is_mergedPRsThisWeek
    (lastWeekDate : Z) (prDetailsByRepo : gmap string (gmap Z PRDetail)) :
  (∀ allPRs n,
     Forall (λ entry, Weekly.mergedPRCount entry.2 = Weekly.mergedPRsThisWeek entry.2)
       (processWeeklyPRs lastWeekDate prDetailsByRepo (take n allPRs))) ∧
  (∀ pr m,
     let m' := updateWeekly lastWeekDate prDetailsByRepo pr m in
     (Weekly.mergedPRCount m' = Weekly.mergedPRCount m ∧
      Weekly.mergedPRsThisWeek m' = Weekly.mergedPRsThisWeek m) ∨
     (Weekly.mergedPRCount m' = S (Weekly.mergedPRCount m) ∧
      Weekly.mergedPRsThisWeek m' = S (Weekly.mergedPRsThisWeek m))).
Proof.
  assert (∀ pr m,
     let m' := updateWeekly lastWeekDate prDetailsByRepo pr m in
     (Weekly.mergedPRCount m' = Weekly.mergedPRCount m ∧
      Weekly.mergedPRsThisWeek m' = Weekly.mergedPRsThisWeek m) ∨
     (Weekly.mergedPRCount m' = S (Weekly.mergedPRCount m) ∧
      Weekly.mergedPRsThisWeek m' = S (Weekly.mergedPRsThisWeek m))) as Hstep.
  { intros pr m. cbn zeta.
    pose proof (update_stateCounters lastWeekDate prDetailsByRepo pr m) as Hc.
    pose proof (update_mergeSamples lastWeekDate prDetailsByRepo pr m) as Hs.
    injection Hc as _ -> _. injection Hs as -> _.
    unfold trackState. case_decide; [by left|].
    destruct (mergedThisWeek lastWeekDate pr); [by right|].
    destruct (closedThisWeek lastWeekDate pr); by left. }
  split; [|done].
  intros allPRs n.
  apply (processWeeklyPRs_Forall lastWeekDate prDetailsByRepo
           (λ m, Weekly.mergedPRCount m = Weekly.mergedPRsThisWeek m)); [done|].
  intros pr m Hm. destruct (Hstep pr m) as [[-> ->]|[-> ->]]; by rewrite Hm.
Qed.

(** *** Merge times *)

Lemma absFloor_quot n d : absFloor (n # d) = n ÷ Z.pos d.
Proof.
  unfold absFloor. destruct (Qlt_le_dec (n # d) 0) as [Hneg|Hpos].
  - unfold Qlt in Hneg. cbn in Hneg.
    unfold Qceiling, Qfloor. cbn [Qopp Qnum Qden].
    rewrite <-(Z.opp_involutive n) at 2. rewrite Z.quot_opp_l by lia.
    rewrite Z.quot_div_nonneg by lia. done.
  - unfold Qle in Hpos. cbn in Hpos. unfold Qfloor.
    rewrite Z.quot_div_nonneg by lia. done.
Qed.

Lemma diff_hours_truncated a b :
  diff_hours a b false = inject_Z ((a - b) ÷ 3600000).
Proof. unfold diff_hours. by rewrite absFloor_quot. Qed.

Lemma Qplus_inject_Z a b : (inject_Z a + inject_Z b)%Q = inject_Z (a + b).
Proof. unfold Qplus, inject_Z. cbn. f_equal. lia. Qed.

(** C10.  In rolling-week mode the merge time added for a PR is the
    difference between its merged and created timestamps in whole hours,
    truncated toward zero, so every contributor's [totalMergeTime] is an
    integer after any pass; bounded mode adds the exact quotient of the
    difference by one hour.  For a PR merged ninety minutes after its
    creation rolling mode adds 1 and bounded mode 3/2. *)
Theorem rolling_merge_time_is_whole_hours :
  (∀ lastWeekDate pr m t,
     state pr ≠ Open → merged_at pr = Some t → lastWeekDate < t →
     Weekly.totalMergeTime (trackState lastWeekDate pr m) =
     (Weekly.totalMergeTime m + inject_Z ((t - created_at pr) ÷ 3600000))%Q) ∧
  (∀ lastWeekDate prDetailsByRepo allPRs,
     Forall (λ entry, ∃ z : Z, Weekly.totalMergeTime entry.2 = inject_Z z)
       (processWeeklyPRs lastWeekDate prDetailsByRepo allPRs)) ∧
  (∀ pr contributor st t,
     state pr ≠ Open → merged_at pr = Some t →
     totalMergeTime (countState pr contributor st) =
     (totalMergeTime st + ((t - created_at pr) # 3600000))%Q) ∧
  (diff_hours 5400000 0 false = 1%Q ∧ diff_hours 5400000 0 true == 3 # 2).
Proof.
  split; [|split; [|split]].
  - intros w pr m t Hopen Hm Ht. unfold trackState.
    rewrite decide_False by done.
    assert (mergedThisWeek w pr = Some t) as -> by by apply mergedThisWeek_Some.
    unfold Weekly.addMerge; cbn [Weekly.totalMergeTime].
    by rewrite diff_hours_truncated.
  - intros w D prs.
    apply (processWeeklyPRs_Forall w D
             (λ m, ∃ z : Z, Weekly.totalMergeTime m = inject_Z z)).
    + by exists 0.
    + intros pr m [z Hz].
      pose proof (update_mergeSamples w D pr m) as Hs. injection Hs as _ ->.
      unfold trackState. case_decide; [by exists z|].
      destruct (mergedThisWeek w pr) as [t|].
      * unfold Weekly.addMerge; cbn [Weekly.totalMergeTime].
        rewrite Hz, diff_hours_truncated, Qplus_inject_Z. by eexists.
      * destruct (closedThisWeek w pr); by exists z.
  - intros pr c st t Hopen Hm. unfold countState.
    rewrite decide_False by done. by rewrite Hm.
  - split; [by vm_compute|]. by vm_compute.
Qed.

(** *** Ranking *)

Section SortProperties.
Context {A : Type} (cmp : A → A → Z).

Lemma sort_insert_perm x l : sort_insert cmp x l ≡ₚ x :: l.
Proof.
  induction l as [|y l IH]; cbn [sort_insert Array_sort]; [done|].
  destruct (cmp x y <=? 0); [done|]. rewrite IH. apply Permutation_swap.
Qed.

Lemma Array_sort_perm l : Array_sort cmp l ≡ₚ l.
Proof.
  induction l as [|x l IH]; cbn [sort_insert Array_sort]; [done|]. by rewrite sort_insert_perm, IH.
Qed.

Lemma filter_sort_insert_skip (P : A → Prop) `{!∀ x, Decision (P x)} x l :
  ¬ P x → filter P (sort_insert cmp x l) = filter P l.
Proof.
  intros Hx. induction l as [|y l IH]; cbn [sort_insert Array_sort].
  - by rewrite filter_cons, decide_False.
  - destruct (cmp x y <=? 0).
    + by rewrite filter_cons, decide_False.
    + by rewrite !(filter_cons _ y), IH.
Qed.

Lemma filter_sort_insert_front (P : A → Prop) `{!∀ x, Decision (P x)} x l :
  P x → (∀ y, P y → cmp x y ≤ 0) →
  filter P (sort_insert cmp x l) = x :: filter P l.
Proof.
  intros Hx Hfront. induction l as [|y l IH]; cbn [sort_insert Array_sort].
  - by rewrite filter_cons, decide_True.
  - destruct (cmp x y <=? 0) eqn:E.
    + by rewrite filter_cons, decide_True.
    + apply Z.leb_gt in E. rewrite !(filter_cons _ y), IH.
      repeat case_decide; try done; pose proof (Hfront y ltac:(assumption)); lia.
Qed.

(** Stability: elements that never have to follow one another keep their
    order. *)
Lemma Array_sort_stable (P : A → Prop) `{!∀ x, Decision (P x)} l :
  (∀ x y, P x → P y → cmp x y ≤ 0) →
  filter P (Array_sort cmp l) = filter P l.
Proof.
  intros Htied. induction l as [|x l IH]; cbn [sort_insert Array_sort]; [done|].
  rewrite filter_cons. case_decide as Hx.
  - rewrite filter_sort_insert_front by eauto. by rewrite IH.
  - rewrite filter_sort_insert_skip by done. done.
Qed.

Context (cmp_connex : ∀ x y, 0 < cmp x y → cmp y x ≤ 0).
Context (cmp_trans : ∀ x y z, cmp x y ≤ 0 → cmp y z ≤ 0 → cmp x z ≤ 0).

Lemma sort_insert_sorted x l :
  StronglySorted (λ a b, cmp a b ≤ 0) l →
  StronglySorted (λ a b, cmp a b ≤ 0) (sort_insert cmp x l).
Proof.
  induction 1 as [|y l Hl IH Hy]; cbn [sort_insert Array_sort].
  - repeat constructor.
  - destruct (cmp x y <=? 0) eqn:E.
    + apply Z.leb_le in E. constructor; [by constructor|].
      constructor; [done|]. eapply Forall_impl; [exact Hy|]. cbn. eauto.
    + apply Z.leb_gt in E. constructor; [done|].
      rewrite sort_insert_perm. constructor; [|done]. by apply cmp_connex.
Qed.

Lemma Array_sort_sorted l : StronglySorted (λ a b, cmp a b ≤ 0) (Array_sort cmp l).
Proof.
  induction l as [|x l IH]; cbn [sort_insert Array_sort]; [constructor|]. by apply sort_insert_sorted.
Qed.
End SortProperties.

Lemma StronglySorted_lookup_lt {A} (R : relation A) l i j a b :
  StronglySorted R l → (i < j)%nat → l !! i = Some a → l !! j = Some b → R a b.
Proof.
  intros Hl. revert i j. induction Hl as [|x l Hl IH Hx]; intros i j Hij Hi Hj.
  - done.
  - destruct j as [|j]; [lia|]. cbn in Hj. destruct i as [|i]; cbn in Hi.
    + injection Hi as <-. rewrite Forall_forall in Hx. apply Hx.
      by eapply list_elem_of_lookup_2.
    + apply (IH i j); [lia|done|done].
Qed.

Lemma compareContributors_le a b :
  compareContributors a b ≤ 0 ↔ ranksNoLower a b.
Proof.
  unfold compareContributors, ranksNoLower.
  destruct (Nat.eqb_spec (Weekly.mergedPRsThisWeek a) (Weekly.mergedPRsThisWeek b));
    destruct (Nat.eqb_spec (Weekly.newPRsThisWeek a) (Weekly.newPRsThisWeek b));
    cbn [negb]; lia.
Qed.

Lemma compareContributors_connex a b :
  0 < compareContributors a b → compareContributors b a ≤ 0.
Proof.
  unfold compareContributors.
  destruct (Nat.eqb_spec (Weekly.mergedPRsThisWeek a) (Weekly.mergedPRsThisWeek b));
    destruct (Nat.eqb_spec (Weekly.newPRsThisWeek a) (Weekly.newPRsThisWeek b));
    destruct (Nat.eqb_spec (Weekly.mergedPRsThisWeek b) (Weekly.mergedPRsThisWeek a));
    destruct (Nat.eqb_spec (Weekly.newPRsThisWeek b) (Weekly.newPRsThisWeek a));
    cbn [negb]; lia.
Qed.

Lemma compareContributors_trans a b c :
  compareContributors a b ≤ 0 → compareContributors b c ≤ 0 →
  compareContributors a c ≤ 0.
Proof. rewrite !compareContributors_le. unfold ranksNoLower. lia. Qed.

Lemma compareContributors_tied a b :
  rankKeys a = rankKeys b → compareContributors a b = 0.
Proof.
  unfold rankKeys, compareContributors. intros [= -> -> ->].
  rewrite !Nat.eqb_refl. cbn [negb]. lia.
Qed.

Lemma StronglySorted_weaken {A} (R S : relation A) l :
  (∀ x y, R x y → S x y) → StronglySorted R l → StronglySorted S l.
Proof.
  intros HRS. induction 1 as [|x l Hl IH Hx]; constructor; [done|].
  eapply Forall_impl; [exact Hx|]. cbn. auto.
Qed.

Lemma sortedContributors_sorted cm :
  StronglySorted (λ e1 e2 : string * Weekly.t, ranksNoLower e1.2 e2.2)
    (sortedContributors cm).
Proof.
  unfold sortedContributors.
  eapply StronglySorted_weaken; [|apply Array_sort_sorted].
  - intros e1 e2 Hle. cbn beta in Hle. by apply compareContributors_le.
  - intros e1 e2. apply compareContributors_connex.
  - intros e1 e2 e3. apply compareContributors_trans.
Qed.

(** C2.  The contributor table of the rolling report holds the entries of
    the contributor map, reordered so that an earlier row never has
    smaller keys than a later one, the keys being [mergedPRsThisWeek], then
    [newPRsThisWeek], then [openPRs], each descending; contributors with
    the same three keys stay in the order they have in the map.  In
    particular, of two contributors with equal [mergedPRsThisWeek] the one
    with more [newPRsThisWeek] comes first. *)
Theorem contributors_ranked_by_merged_new_open (contributorMetrics : ContributorMap) :
  let ranked := sortedContributors contributorMetrics in
  tableRows contributorMetrics = map tableRow ranked ∧
  ranked ≡ₚ contributorMetrics ∧
  (∀ i j a b,
     (i < j)%nat → ranked !! i = Some a → ranked !! j = Some b →
     (Weekly.mergedPRsThisWeek b.2 < Weekly.mergedPRsThisWeek a.2)%nat ∨
     (Weekly.mergedPRsThisWeek b.2 = Weekly.mergedPRsThisWeek a.2 ∧
      ((Weekly.newPRsThisWeek b.2 < Weekly.newPRsThisWeek a.2)%nat ∨
       (Weekly.newPRsThisWeek b.2 = Weekly.newPRsThisWeek a.2 ∧
        (Weekly.openPRs b.2 ≤ Weekly.openPRs a.2)%nat)))) ∧
  (∀ keys,
     filter (λ e, rankKeys e.2 = keys) ranked =
     filter (λ e, rankKeys e.2 = keys) contributorMetrics) ∧
  (∀ i j a b,
     ranked !! i = Some a → ranked !! j = Some b →
     Weekly.mergedPRsThisWeek a.2 = Weekly.mergedPRsThisWeek b.2 →
     (Weekly.newPRsThisWeek b.2 < Weekly.newPRsThisWeek a.2)%nat →
     (i < j)%nat).
Proof.
  cbn zeta. pose proof (sortedContributors_sorted contributorMetrics) as Hsorted.
  split; [done|]. split; [apply Array_sort_perm|]. split; [|split].
  - intros i j a b Hij Ha Hb.
    apply (StronglySorted_lookup_lt _ _ i j a b Hsorted Hij Ha Hb).
  - intros keys. unfold sortedContributors. apply Array_sort_stable.
    intros e1 e2 H1 H2. rewrite compareContributors_tied; [done|congruence].
  - intros i j a b Ha Hb Hmerged Hnew.
    destruct (decide (i < j)%nat) as [|Hge]; [done|]. exfalso.
    destruct (decide (i = j)) as [->|Hne].
    + rewrite Ha in Hb. injection Hb as ->. lia.
    + assert (j < i)%nat as Hji by lia.
      pose proof (StronglySorted_lookup_lt _ _ j i b a Hsorted Hji Hb Ha) as Hrank.
      unfold ranksNoLower in Hrank. cbn beta in Hrank. lia.
Qed.

(** The ranking example of the specification: merged counts 3, 3, 1 and
    new counts 2, 5, 9. *)
Example ranking_example :
  (sortedContributors
     [("first", Weekly.mk 2 3 0 0 0 0 0); ("second", Weekly.mk 5 3 0 0 0 0 0);
      ("third", Weekly.mk 9 1 0 0 0 0 0)]).*1
  = ["second"; "first"; "third"].
Proof. reflexivity. Qed.

(** ** The sample scenario *)

Example sample_bounded_metrics :
  ∃ metrics,
    calculatePRMetrics Sample.octokit "testRepo" Sample.startDate Sample.endDate
      = Normal metrics ∧
    (Metrics.newPRs metrics, Metrics.mergedPRs metrics, Metrics.openPRs metrics)
      = (2, 1, 1)%nat ∧
    Metrics.contributors metrics !! "user1" = Some (Contributor.mk 1 0 1 0) ∧
    Metrics.contributors metrics !! "user2" = Some (Contributor.mk 1 1 0 0) ∧
    generateReport_summary metrics !! 6%nat
      = Some "- Average Time to Merge: 24.0 hours".
Proof. eexists. split; [reflexivity|]. by vm_compute. Qed.

Example sample_detail_failure :
  ∃ details,
    fetchPRDetails Sample.octokit "testRepo" [2; 123; 7] = Normal details ∧
    details !! 123 = Some zeroDetail ∧
    details !! 2 = Some {| totalComments := 0; reviewComments := 0;
                           discussionComments := 0; reviews := 1;
                           approvals := 1; changesRequested := 0 |} ∧
    details !! 7 = Some zeroDetail ∧
    dom details = {[2; 7; 123]}.
Proof. eexists. split; [reflexivity|]. by vm_compute. Qed.

Example sample_weekly_rows :
  ∃ contributorMetrics,
    weeklyContributorMetrics Sample.octokit ["testRepo"] Sample.startDate
      = Normal contributorMetrics ∧
    contributorMetrics.*1 = ["user1"; "user2"] ∧
    tableRows contributorMetrics =
      [ "| user2 | 1 | 1 | 0 | 0 | 24.0 | 0.0 |" ++ newline;
        "| user1 | 1 | 0 | 1 | 0 | 0.0 | 0.0 |" ++ newline ].
Proof. eexists. split; [reflexivity|]. by vm_compute. Qed.

(** * Further properties *)

(** ** Fetching *)

(** X1.  [fetchPRs] never throws.  A rejected list request gives the empty
    list; a fulfilled one gives the records of the answer in their order,
    each with [repoName] set to the repository asked for and every other
    field as received. *)
Theorem fetchPRs_absorbs_failure (octokit : Octokit) (repo : string) :
  ∃ prs,
    fetchPRs octokit repo = Normal prs ∧
    (∀ e, pulls_list octokit repo = Throw e → prs = []) ∧
    (∀ raw, pulls_list octokit repo = Normal raw →
       Forall2 (λ pr r,
           repoName pr = repo ∧ number pr = number r ∧ state pr = state r ∧
           user_login pr = user_login r ∧ created_at pr = created_at r ∧
           merged_at pr = merged_at r ∧ closed_at pr = closed_at r ∧
           updated_at pr = updated_at r) prs raw).
Proof.
  unfold fetchPRs. destruct (pulls_list octokit repo) as [raw|e]; cbn.
  - eexists. split; [done|]. split; [done|]. intros ? [= <-].
    induction raw as [|r raw IH]; constructor; [done|apply IH].
  - exists []. split; [done|]. split; [done|]. done.
Qed.

Lemma filter_disjoint_length {A} (P Q : A → Prop)
    `{!∀ x, Decision (P x), !∀ x, Decision (Q x)} (l : list A) :
  (∀ x, P x → Q x → False) →
  (length (filter P l) + length (filter Q l) ≤ length l)%nat.
Proof.
  intros Hdisj. induction l as [|x l IH]; [done|].
  rewrite !filter_cons.
  destruct (decide (P x)) as [HP|]; destruct (decide (Q x)) as [HQ|];
    cbn [length]; try lia.
  destruct (Hdisj x HP HQ).
Qed.

Lemma detailOf_invariants octokit repo n d :
  detailOf octokit repo n = Normal d →
  totalComments d = (discussionComments d + reviewComments d)%nat ∧
  (approvals d + changesRequested d ≤ reviews d)%nat.
Proof.
  unfold detailOf, Promise_all3.
  destruct (issues_listComments octokit repo n) as [cs|]; [|done].
  destruct (pulls_listReviewComments octokit repo n) as [rcs|]; [|done].
  destruct (pulls_listReviews octokit repo n) as [rs|]; [|done].
  cbn. intros [= <-]. cbn. split; [done|].
  apply filter_disjoint_length. intros r Ha Hc. unfold hasState in Ha, Hc.
  apply bool_decide_eq_true in Ha, Hc. rewrite Ha in Hc. discriminate.
Qed.

(** X2.  Every record that [fetchPRDetails] returns is consistent:
    [totalComments] is the sum of the discussion and review comments, and
    the approvals and change requests together do not exceed the
    reviews. *)
Theorem fetchPRDetails_records_consistent
    (octokit : Octokit) (repo : string) (prNumbers : list Z) :
  ∃ details,
    fetchPRDetails octokit repo prNumbers = Normal details ∧
    map_Forall (λ _ d,
        totalComments d = (discussionComments d + reviewComments d)%nat ∧
        (approvals d + changesRequested d ≤ reviews d)%nat) details.
Proof.
  destruct (fetchPRDetails_lookup octokit repo prNumbers) as (details & Hrun & Hlk).
  exists details. split; [done|]. intros n d Hd. rewrite Hlk in Hd.
  case_bool_decide; [|done]. injection Hd as <-. unfold storedDetail.
  destruct (detailOf octokit repo n) as [d|] eqn:E.
  - by eapply detailOf_invariants.
  - cbn. lia.
Qed.

(** X3.  What [fetchPRDetails] returns depends on which numbers are
    requested, not on their order or on how often one is listed. *)
Theorem fetchPRDetails_order_irrelevant
    (octokit : Octokit) (repo : string) (prNumbers prNumbers' : list Z) :
  list_to_set prNumbers =@{gset Z} list_to_set prNumbers' →
  fetchPRDetails octokit repo prNumbers = fetchPRDetails octokit repo prNumbers'.
Proof.
  intros Hsame.
  destruct (fetchPRDetails_lookup octokit repo prNumbers) as (d1 & -> & H1).
  destruct (fetchPRDetails_lookup octokit repo prNumbers') as (d2 & -> & H2).
  f_equal. apply map_eq. intros n. rewrite H1, H2.
  assert (n ∈ prNumbers ↔ n ∈ prNumbers') as Hiff.
  { rewrite <-!(elem_of_list_to_set (C := gset Z)). by rewrite Hsame. }
  by rewrite (bool_decide_ext _ _ Hiff).
Qed.

Lemma fetchPRDetails_order_irrelevant_witness :
  fetchPRDetails Sample.octokit "testRepo" [2; 123; 2] =
  fetchPRDetails Sample.octokit "testRepo" [123; 2].
Proof. apply fetchPRDetails_order_irrelevant. reflexivity. Defined.

(** ** Bounded-range mode: the other counters *)

(** X4.  When the list request fails or finds nothing, the bounded report
    degrades instead of aborting: [calculatePRMetrics] returns the all-zero
    metrics with no contributor, and [generateReport] renders them as the
    fixed no-activity document with both averages shown as N/A. *)
Theorem no_fetched_PRs_gives_no_activity_report
    (octokit : Octokit) (repo : string) (startDate endDate : Z)
    (Object_entries : gmap string Contributor.t → list (string * Contributor.t)) :
  (∀ m, Object_entries m ≡ₚ map_to_list m) →
  fetchPRs octokit repo = Normal [] →
  ∃ metrics,
    calculatePRMetrics octokit repo startDate endDate = Normal metrics ∧
    metrics = {| Metrics.newPRs := 0; Metrics.mergedPRs := 0; Metrics.openPRs := 0;
                 Metrics.avgTimeToMerge := Finite 0;
                 Metrics.avgTimeToFirstReview := Finite 0;
                 Metrics.contributors := ∅ |} ∧
    generateReport Object_entries metrics =
      String.concat newline
      [ "# GitHub Activity Report"; ""; "## Summary";
        "- New PRs: 0"; "- Merged PRs: 0"; "- Open PRs: 0";
        "- Average Time to Merge: N/A";
        "- Average Time to First Review: N/A"; "";
        "No activity in the repository during this period." ].
Proof.
  intros Hentries Hfetch. eexists. split.
  - unfold calculatePRMetrics. rewrite Hfetch. reflexivity.
  - split; [reflexivity|].
    unfold generateReport, generateReport_lines.
    cbn [Metrics.contributors finalize processPRs foldl
      initialState contributors].
    assert (Object_entries ∅ = []) as ->.
    { apply Permutation_nil_r. by rewrite Hentries, map_to_list_empty. }
    reflexivity.
Qed.

Lemma no_fetched_PRs_gives_no_activity_report_witness :
  ∃ metrics,
    calculatePRMetrics Sample.offline "testRepo" Sample.startDate Sample.endDate
      = Normal metrics ∧
    metrics = {| Metrics.newPRs := 0; Metrics.mergedPRs := 0; Metrics.openPRs := 0;
                 Metrics.avgTimeToMerge := Finite 0;
                 Metrics.avgTimeToFirstReview := Finite 0;
                 Metrics.contributors := ∅ |} ∧
    generateReport map_to_list metrics =
      String.concat newline
      [ "# GitHub Activity Report"; ""; "## Summary";
        "- New PRs: 0"; "- Merged PRs: 0"; "- Open PRs: 0";
        "- Average Time to Merge: N/A";
        "- Average Time to First Review: N/A"; "";
        "No activity in the repository during this period." ].
Proof.
  apply no_fetched_PRs_gives_no_activity_report.
  - intros m. reflexivity.
  - reflexivity.
Defined.

Lemma count_cons {A} (p : A → bool) x l :
  count p (x :: l) = ((if p x then 1 else 0) + count p l)%nat.
Proof.
  unfold count. rewrite filter_cons. destruct (p x); case_decide; done.
Qed.

Lemma count_inRange_partition start end_ prs :
  count (inRange start end_) prs =
  (count (openInRange start end_) prs + count (mergedInRange start end_) prs
   + count (closedUnmergedInRange start end_) prs)%nat.
Proof.
  induction prs as [|pr prs IH]; [done|]. rewrite !count_cons, IH.
  unfold openInRange, mergedInRange, closedUnmergedInRange.
  destruct (inRange start end_ pr); cbn [andb]; [|lia].
  destruct (decide (state pr = Open)) as [Ho|Ho].
  - rewrite (bool_decide_eq_true_2 _ Ho), (bool_decide_eq_false_2 (state pr ≠ Open))
      by naive_solver. cbn. lia.
  - rewrite (bool_decide_eq_false_2 _ Ho), (bool_decide_eq_true_2 _ Ho).
    destruct (merged_at pr); cbn; lia.
Qed.


Section BoundedCounters.
Context (start end_ : Z) (prDetails : gmap Z PRDetail).

Local Abbreviation step := (processPR start end_ prDetails).
Local Abbreviation run := (processPRs start end_ prDetails).

Lemma processPR_openPRs st pr :
  openPRs (step st pr) =
  (openPRs st + if openInRange start end_ pr then 1 else 0)%nat.
Proof.
  unfold openInRange. destruct (inRange start end_ pr) eqn:Hin.
  - rewrite processPR_in by done.
    destruct (recordDetails_fields prDetails pr (user_login pr)
      (countState pr (user_login pr) (countNew (user_login pr) st)))
      as (_ & _ & -> & _).
    unfold countState. case_decide as Hopen.
    + rewrite bool_decide_eq_true_2 by done. cbn. lia.
    + rewrite bool_decide_eq_false_2 by done.
      destruct (merged_at pr); cbn; lia.
  - rewrite processPR_out by done. cbn. lia.
Qed.

Lemma run_openPRs prs : openPRs (run prs) = count (openInRange start end_) prs.
Proof.
  induction prs as [|pr prs IH] using rev_ind; [done|].
  by rewrite run_snoc, processPR_openPRs, IH, count_snoc.
Qed.



End BoundedCounters.




(** X5.  In the metrics that [calculatePRMetrics] returns, [openPRs] is the
    number of fetched PRs created in the range that are open, [mergedPRs]
    the number of those that are not open and have a merged timestamp, and
    every PR counted as new is counted as open, as merged, or is closed
    without a merge: [newPRs] is the sum of the three numbers. *)
Theorem bounded_counters_partition_new
    (octokit : Octokit) (repo : string) (startDate endDate : Z) :
  ∃ prs metrics,
    fetchPRs octokit repo = Normal prs ∧
    calculatePRMetrics octokit repo startDate endDate = Normal metrics ∧
    Metrics.openPRs metrics = count (openInRange startDate endDate) prs ∧
    Metrics.mergedPRs metrics = count (mergedInRange startDate endDate) prs ∧
    Metrics.newPRs metrics =
      (Metrics.openPRs metrics + Metrics.mergedPRs metrics
       + count (closedUnmergedInRange startDate endDate) prs)%nat.
Proof.
  destruct (calculatePRMetrics_run octokit repo startDate endDate)
    as (prs & D & Hprs & _ & _ & Hrun).
  exists prs, (finalize (processPRs startDate endDate D prs)).
  split; [done|]. split; [done|]. cbn.
  destruct (run_mergedCount startDate endDate D prs) as [_ Hmerged].
  rewrite run_openPRs, Hmerged, run_newPRs. repeat split.
  apply count_inRange_partition.
Qed.


(** ** Bounded-range mode: the averages *)



Lemma toFixed1_Qeq x y : x == y → toFixed1 x = toFixed1 y.
Proof.
  intros Hxy. unfold toFixed1.
  assert (Qfloor (Qabs x * 10 + (1 # 2)) = Qfloor (Qabs y * 10 + (1 # 2))) as ->.
  { apply Qfloor_comp. by rewrite Hxy. }
  destruct (Qlt_le_dec x 0) as [Hx|Hx], (Qlt_le_dec y 0) as [Hy|Hy]; try done.
  - rewrite Hxy in Hx. destruct (Qlt_not_le _ _ Hx Hy).
  - rewrite Hxy in Hx. destruct (Qlt_not_le _ _ Hy Hx).
Qed.

Section BoundedAverages.
Context (start end_ : Z) (prDetails : gmap Z PRDetail).

Local Abbreviation step := (processPR start end_ prDetails).
Local Abbreviation run := (processPRs start end_ prDetails).

Lemma countState_review_fields pr c st :
  totalFirstReviewTime (countState pr c st) = totalFirstReviewTime st ∧
  reviewedCount (countState pr c st) = reviewedCount st.
Proof.
  unfold countState. case_decide; [done|]. by destruct (merged_at pr).
Qed.

Lemma run_reviewed prs :
  reviewedCount (run prs) = count (reviewedInRange start end_ prDetails) prs ∧
  totalFirstReviewTime (run prs) == inject_Z (2 * Z.of_nat (reviewedCount (run prs))).
Proof.
  induction prs as [|pr prs [IHn IHt]] using rev_ind; [done|].
  rewrite run_snoc, count_snoc.
  destruct (reviewedInRange start end_ prDetails pr) eqn:Hrev;
    unfold reviewedInRange in Hrev;
    destruct (inRange start end_ pr) eqn:Hin; cbn [andb] in Hrev; try done.
  - rewrite processPR_in by done. unfold recordDetails.
    destruct (countState_review_fields pr (user_login pr)
                (countNew (user_login pr) (run prs))) as [Ht Hn].
    destruct (prDetails !! number pr) as [d|]; [|done]. rewrite Hrev.
    cbn [reviewedCount totalFirstReviewTime]. rewrite Ht, Hn.
    cbn [countNew reviewedCount totalFirstReviewTime].
    split; [lia|]. rewrite IHt. unfold diff_hours, Qeq, Qplus, inject_Z.
    cbn [Qnum Qden]. lia.
  - rewrite processPR_in by done. unfold recordDetails.
    destruct (countState_review_fields pr (user_login pr)
                (countNew (user_login pr) (run prs))) as [Ht Hn].
    destruct (prDetails !! number pr) as [d|].
    + rewrite Hrev. cbn [reviewedCount totalFirstReviewTime]. rewrite Ht, Hn.
      cbn [countNew reviewedCount totalFirstReviewTime]. split; [lia|done].
    + rewrite Ht, Hn. cbn [countNew reviewedCount totalFirstReviewTime].
      split; [lia|done].
  - rewrite processPR_out by done. split; [lia|done].
Qed.

End BoundedAverages.

(** X7.  The average time to first review carries no measurement: every
    PR counted as reviewed contributes exactly two hours.  In the metrics
    that [calculatePRMetrics] returns it is 0, shown as N/A, when no fetched
    PR created in the range has a review, and a number equal to 2, shown as
    2.0 hours, otherwise. *)
Theorem first_review_average_is_zero_or_two
    (octokit : Octokit) (repo : string) (startDate endDate : Z) :
  ∃ prs prDetails metrics,
    fetchPRs octokit repo = Normal prs ∧
    fetchPRDetails octokit repo (map number prs) = Normal prDetails ∧
    calculatePRMetrics octokit repo startDate endDate = Normal metrics ∧
    let reviewed := count (reviewedInRange startDate endDate prDetails) prs in
    (reviewed = 0%nat →
       Metrics.avgTimeToFirstReview metrics = Finite 0 ∧
       generateReport_summary metrics !! 7%nat
         = Some "- Average Time to First Review: N/A") ∧
    (reviewed ≠ 0%nat →
       ∃ q, Metrics.avgTimeToFirstReview metrics = Finite q ∧ q == 2 ∧
            generateReport_summary metrics !! 7%nat
              = Some "- Average Time to First Review: 2.0 hours").
Proof.
  destruct (calculatePRMetrics_run octokit repo startDate endDate)
    as (prs & D & Hprs & HD & _ & Hrun).
  exists prs, D, (finalize (processPRs startDate endDate D prs)).
  split; [done|]. split; [done|]. split; [done|]. cbn zeta.
  destruct (run_reviewed startDate endDate D prs) as [Hn Ht]. rewrite <-Hn.
  unfold generateReport_summary, finalize; cbn [Metrics.avgTimeToFirstReview].
  set (st := processPRs startDate endDate D prs) in *.
  split.
  - intros ->. split; reflexivity.
  - intros Hpos.
    assert (0 < reviewedCount st)%nat as Hlt by lia.
    rewrite (proj2 (Nat.ltb_lt _ _) Hlt), Number_div_finite by done.
    eexists. split; [done|].
    assert (totalFirstReviewTime st / numQ (reviewedCount st) == 2) as Hq.
    { rewrite Ht. unfold numQ. rewrite inject_Z_mult. field.
      intros H0. unfold Qeq in H0. cbn in H0. lia. }
    split; [done|]. cbn [lookup list_lookup]. unfold showHours, Number_isZero.
    destruct (Qeq_bool _ 0) eqn:E.
    + apply Qeq_bool_eq in E. rewrite Hq in E. discriminate.
    + cbn [Number_toFixed1]. by rewrite (toFixed1_Qeq _ 2 Hq).
Qed.


(** ** generateReport *)




(** ** Rolling-week mode: the contributor map and its counters *)

Lemma Map_get_None_keys k (m : ContributorMap) : Map_get k m = None ↔ k ∉ m.*1.
Proof.
  induction m as [|[k' v] m IH]; cbn.
  - split; [intros _; apply not_elem_of_nil|done].
  - rewrite not_elem_of_cons. destruct (decide (k = k')) as [->|Hne].
    + split; [done|]. by intros [? _].
    + rewrite IH. split; [by intros ?|by intros [_ ?]].
Qed.

Lemma Map_set_keys k v (m : ContributorMap) :
  (Map_set k v m).*1 = (m.*1 ++ if decide (k ∈ m.*1) then [] else [k])%list.
Proof.
  induction m as [|[k' v'] m IH]; cbn [Map_set fmap list_fmap fst].
  - rewrite decide_False by apply not_elem_of_nil. done.
  - destruct (decide (k = k')) as [->|Hne]; cbn [fmap list_fmap fst].
    + rewrite decide_True by left. by rewrite app_nil_r.
    + rewrite IH. cbn [app]. f_equal.
      destruct (decide (k ∈ m.*1)) as [Hin|Hout].
      * rewrite decide_True by (by right). done.
      * rewrite decide_False; [done|]. rewrite not_elem_of_cons. done.
Qed.

Lemma sumWeekly_Map_set g k v (m : ContributorMap) :
  g Weekly.zero = 0%nat →
  (sumWeekly g (Map_set k v m) + g (default Weekly.zero (Map_get k m))
   = sumWeekly g m + g v)%nat.
Proof.
  intros Hzero. unfold sumWeekly.
  induction m as [|[k' v'] m IH]; cbn.
  - lia.
  - destruct (decide (k = k')); cbn; lia.
Qed.

Section RollingCounters.
Context (lastWeekDate : Z) (prDetailsByRepo : gmap string (gmap Z PRDetail)).

Local Abbreviation wstep := (processWeeklyPR lastWeekDate prDetailsByRepo).
Local Abbreviation wrun := (processWeeklyPRs lastWeekDate prDetailsByRepo).
Local Abbreviation update := (updateWeekly lastWeekDate prDetailsByRepo).

Lemma processWeeklyPR_as_set cm pr :
  wstep cm pr =
  Map_set (user_login pr)
    (update pr (default Weekly.zero (Map_get (user_login pr) cm))) cm
  ∨ (Map_get (user_login pr) cm = None ∧
     wstep cm pr =
     Map_set (user_login pr) (update pr Weekly.zero)
       (Map_set (user_login pr) Weekly.zero cm)).
Proof.
  rewrite processWeeklyPR_unfold. cbn zeta. unfold Map_has.
  destruct (Map_get (user_login pr) cm) as [m|] eqn:Hget.
  - left. by rewrite bool_decide_eq_true_2.
  - right. split; [done|]. by rewrite bool_decide_eq_false_2 by by intros [? ?].
Qed.

Lemma processWeeklyPR_keys cm pr :
  (wstep cm pr).*1 =
  (cm.*1 ++ if decide (user_login pr ∈ cm.*1) then [] else [user_login pr])%list.
Proof.
  destruct (processWeeklyPR_as_set cm pr) as [->|[Hnone ->]].
  - apply Map_set_keys.
  - rewrite !Map_set_keys. apply Map_get_None_keys in Hnone.
    rewrite (decide_False (P := user_login pr ∈ cm.*1)) by done.
    rewrite decide_True; [by rewrite app_nil_r|].
    apply elem_of_app. right. left.
Qed.

Lemma processWeeklyPR_sumWeekly g cm pr :
  g Weekly.zero = 0%nat →
  (sumWeekly g (wstep cm pr)
   + g (default Weekly.zero (Map_get (user_login pr) cm))
   = sumWeekly g cm
     + g (update pr (default Weekly.zero (Map_get (user_login pr) cm))))%nat.
Proof.
  intros Hzero. destruct (processWeeklyPR_as_set cm pr) as [->|[Hnone ->]].
  - by apply sumWeekly_Map_set.
  - rewrite Hnone. cbn [default].
    pose proof (sumWeekly_Map_set g (user_login pr) Weekly.zero cm Hzero) as H1.
    pose proof (sumWeekly_Map_set g (user_login pr) (update pr Weekly.zero)
                  (Map_set (user_login pr) Weekly.zero cm) Hzero) as H2.
    rewrite Map_get_set, decide_True in H2 by done. rewrite Hnone in H1.
    cbn [default id] in *. lia.
Qed.

Lemma wrun_keys_NoDup prs : NoDup (wrun prs).*1.
Proof.
  induction prs as [|pr prs IH] using rev_ind; [constructor|].
  rewrite wrun_snoc, processWeeklyPR_keys. case_decide as Hin.
  - by rewrite app_nil_r.
  - apply NoDup_app. split; [done|]. split; [|apply NoDup_singleton].
    intros x Hx ->%list_elem_of_singleton. done.
Qed.

Lemma wrun_keys_authors prs a : a ∈ (wrun prs).*1 ↔ a ∈ user_login <$> prs.
Proof.
  induction prs as [|pr prs IH] using rev_ind; [done|].
  rewrite wrun_snoc, processWeeklyPR_keys, fmap_app, !elem_of_app, <-IH.
  cbn [fmap list_fmap]. rewrite list_elem_of_singleton.
  case_decide as Hin.
  - split.
    + intros [?|H]; [by left|by apply elem_of_nil in H].
    + intros [?| ->]; by left.
  - by rewrite list_elem_of_singleton.
Qed.

Lemma sumBy_snoc bump a prs pr :
  sumBy bump a (prs ++ [pr]) =
  (sumBy bump a prs + if decide (user_login pr = a) then bump pr else 0)%nat.
Proof.
  unfold sumBy. rewrite filter_app, fmap_app, sum_list_with_app, filter_cons, filter_nil.
  case_decide; cbn; lia.
Qed.

(** A field that one iteration raises by [bump pr] holds, in the record
    of an author, the sum of [bump] over the author's PRs. *)
Lemma wrun_measure (g : Weekly.t → nat) (bump : PullRequest → nat) prs a :
  g Weekly.zero = 0%nat →
  (∀ pr m, g (update pr m) = (g m + bump pr)%nat) →
  g (default Weekly.zero (Map_get a (wrun prs))) = sumBy bump a prs.
Proof.
  intros Hzero Hbump. induction prs as [|pr prs IH] using rev_ind; [done|].
  rewrite wrun_snoc, processWeeklyPR_get, sumBy_snoc.
  destruct (decide (a = user_login pr)) as [->|Hne].
  - rewrite decide_True by done. cbn [from_option id]. by rewrite Hbump, IH.
  - rewrite decide_False by done. rewrite IH. lia.
Qed.

Lemma wrun_sumWeekly (g : Weekly.t → nat) (bump : PullRequest → nat) prs :
  g Weekly.zero = 0%nat →
  (∀ pr m, g (update pr m) = (g m + bump pr)%nat) →
  sumWeekly g (wrun prs) = sum_list (bump <$> prs).
Proof.
  intros Hzero Hbump. induction prs as [|pr prs IH] using rev_ind; [done|].
  rewrite wrun_snoc, fmap_app, sum_list_with_app. cbn.
  pose proof (processWeeklyPR_sumWeekly g (wrun prs) pr Hzero) as H.
  rewrite Hbump in H. lia.
Qed.

Lemma update_newPRsThisWeek pr m :
  Weekly.newPRsThisWeek (update pr m) =
  (Weekly.newPRsThisWeek m + oneIf (weeklyNew lastWeekDate pr))%nat.
Proof.
  unfold updateWeekly, trackComments, trackState, trackNew, weeklyNew, isAfter.
  destruct (prDetailsByRepo !! repoName pr) as [repoDetails|];
    [destruct (repoDetails !! number pr)|];
    (destruct (lastWeekDate <? created_at pr) eqn:E;
     [apply Z.ltb_lt in E; rewrite bool_decide_eq_true_2 by done
     |apply Z.ltb_ge in E; rewrite bool_decide_eq_false_2 by lia]);
    case_decide; try (cbn; lia);
    destruct (mergedThisWeek lastWeekDate pr); try (cbn; lia);
    destruct (closedThisWeek lastWeekDate pr); cbn; lia.
Qed.

Lemma trackState_counters pr m :
  stateCounters (trackState lastWeekDate pr m) =
  ((Weekly.openPRs m + oneIf (weeklyOpen pr))%nat,
   (Weekly.mergedPRsThisWeek m + oneIf (weeklyMerged lastWeekDate pr))%nat,
   (Weekly.closedPRsThisWeek m + oneIf (weeklyClosed lastWeekDate pr))%nat).
Proof.
  unfold trackState, weeklyOpen, weeklyMerged, weeklyClosed, mergedThisWeek,
    closedThisWeek, isAfter, stateCounters.
  destruct (decide (state pr = Open)) as [Ho|Ho].
  { rewrite (bool_decide_eq_true_2 _ Ho), (bool_decide_eq_false_2 (state pr ≠ Open))
      by naive_solver. cbn. f_equal; [f_equal|]; lia. }
  rewrite (bool_decide_eq_false_2 _ Ho), (bool_decide_eq_true_2 _ Ho). cbn [andb].
  destruct (merged_at pr) as [t|].
  - rewrite (bool_decide_eq_false_2 (Some t = None)) by done.
    rewrite (bool_decide_eq_true_2 (is_Some (Some t))) by by eexists.
    destruct (lastWeekDate <? t) eqn:E.
    + apply Z.ltb_lt in E. rewrite bool_decide_eq_true_2 by done.
      cbn. f_equal; [f_equal|]; lia.
    + apply Z.ltb_ge in E. rewrite bool_decide_eq_false_2 by lia.
      destruct (closed_at pr); rewrite ?andb_false_r; cbn; f_equal; (try f_equal); lia.
  - rewrite (bool_decide_eq_true_2 (None = None)) by done.
    rewrite (bool_decide_eq_false_2 (is_Some None)) by by intros [? ?].
    destruct (closed_at pr) as [t|]; [|cbn; f_equal; [f_equal|]; lia].
    destruct (lastWeekDate <? t) eqn:E.
    + apply Z.ltb_lt in E. rewrite bool_decide_eq_true_2 by done.
      cbn. f_equal; [f_equal|]; lia.
    + apply Z.ltb_ge in E. rewrite bool_decide_eq_false_2 by lia.
      cbn. f_equal; [f_equal|]; lia.
Qed.

Lemma update_counters pr m :
  Weekly.openPRs (update pr m) = (Weekly.openPRs m + oneIf (weeklyOpen pr))%nat ∧
  Weekly.mergedPRsThisWeek (update pr m) =
    (Weekly.mergedPRsThisWeek m + oneIf (weeklyMerged lastWeekDate pr))%nat ∧
  Weekly.closedPRsThisWeek (update pr m) =
    (Weekly.closedPRsThisWeek m + oneIf (weeklyClosed lastWeekDate pr))%nat.
Proof.
  pose proof (update_stateCounters lastWeekDate prDetailsByRepo pr m) as H1.
  pose proof (trackState_counters pr m) as H2. rewrite H2 in H1.
  by injection H1 as -> -> ->.
Qed.

Lemma update_totalComments pr m :
  Weekly.totalComments (update pr m) =
  (Weekly.totalComments m + commentsOf prDetailsByRepo pr)%nat.
Proof.
  unfold updateWeekly, trackComments, commentsOf, trackState, trackNew.
  destruct (prDetailsByRepo !! repoName pr) as [repoDetails|];
    [destruct (repoDetails !! number pr)|];
    destruct (isAfter (created_at pr) lastWeekDate);
    case_decide; try (cbn; lia);
    destruct (mergedThisWeek lastWeekDate pr); try (cbn; lia);
    destruct (closedThisWeek lastWeekDate pr); cbn; lia.
Qed.
End RollingCounters.

Lemma sumBy_oneIf (p : PullRequest → bool) a prs :
  sumBy (λ pr, oneIf (p pr)) a prs =
  count (λ pr, bool_decide (user_login pr = a) && p pr) prs.
Proof.
  induction prs as [|pr prs IH]; [done|].
  rewrite count_cons, <-IH. unfold sumBy. rewrite filter_cons.
  case_decide as Ha.
  - rewrite bool_decide_eq_true_2 by done. cbn. by destruct (p pr).
  - rewrite bool_decide_eq_false_2 by done. done.
Qed.

Lemma sum_list_oneIf (p : PullRequest → bool) prs :
  sum_list ((λ pr, oneIf (p pr)) <$> prs) = count p prs.
Proof.
  induction prs as [|pr prs IH]; [done|].
  rewrite count_cons, <-IH. cbn. by destruct (p pr).
Qed.

Lemma update_mergedPRCount lastWeekDate prDetailsByRepo pr m :
  Weekly.mergedPRCount (updateWeekly lastWeekDate prDetailsByRepo pr m) =
  (Weekly.mergedPRCount m + oneIf (weeklyMerged lastWeekDate pr))%nat.
Proof.
  pose proof (update_mergeSamples lastWeekDate prDetailsByRepo pr m) as Hs.
  injection Hs as -> _.
  pose proof (trackState_counters lastWeekDate pr m) as Hc.
  injection Hc as _ Hmerged _.
  assert (Weekly.mergedPRCount (trackState lastWeekDate pr m)
          + Weekly.mergedPRsThisWeek m
          = Weekly.mergedPRsThisWeek (trackState lastWeekDate pr m)
            + Weekly.mergedPRCount m)%nat as Hsame.
  { unfold trackState. case_decide; [cbn; lia|].
    destruct (mergedThisWeek lastWeekDate pr); [cbn; lia|].
    destruct (closedThisWeek lastWeekDate pr); cbn; lia. }
  lia.
Qed.

Lemma totalMetrics_fields (cm : ContributorMap) :
  Weekly.newPRsThisWeek (totalMetrics cm) = sumWeekly Weekly.newPRsThisWeek cm ∧
  Weekly.mergedPRsThisWeek (totalMetrics cm) = sumWeekly Weekly.mergedPRsThisWeek cm ∧
  Weekly.openPRs (totalMetrics cm) = sumWeekly Weekly.openPRs cm ∧
  Weekly.closedPRsThisWeek (totalMetrics cm) = sumWeekly Weekly.closedPRsThisWeek cm ∧
  Weekly.totalComments (totalMetrics cm) = sumWeekly Weekly.totalComments cm ∧
  Weekly.mergedPRCount (totalMetrics cm) = sumWeekly Weekly.mergedPRCount cm.
Proof.
  unfold totalMetrics, sumWeekly.
  assert (∀ (l : list Weekly.t) acc,
    let total := foldl (λ acc curr,
      Weekly.mk
        (Weekly.newPRsThisWeek acc + Weekly.newPRsThisWeek curr)
        (Weekly.mergedPRsThisWeek acc + Weekly.mergedPRsThisWeek curr)
        (Weekly.openPRs acc + Weekly.openPRs curr)
        (Weekly.closedPRsThisWeek acc + Weekly.closedPRsThisWeek curr)
        (Weekly.totalComments acc + Weekly.totalComments curr)
        (Weekly.mergedPRCount acc + Weekly.mergedPRCount curr)
        (Weekly.totalMergeTime acc + Weekly.totalMergeTime curr)%Q) acc l in
    Weekly.newPRsThisWeek total
      = (Weekly.newPRsThisWeek acc + sum_list (Weekly.newPRsThisWeek <$> l))%nat ∧
    Weekly.mergedPRsThisWeek total
      = (Weekly.mergedPRsThisWeek acc + sum_list (Weekly.mergedPRsThisWeek <$> l))%nat ∧
    Weekly.openPRs total
      = (Weekly.openPRs acc + sum_list (Weekly.openPRs <$> l))%nat ∧
    Weekly.closedPRsThisWeek total
      = (Weekly.closedPRsThisWeek acc + sum_list (Weekly.closedPRsThisWeek <$> l))%nat ∧
    Weekly.totalComments total
      = (Weekly.totalComments acc + sum_list (Weekly.totalComments <$> l))%nat ∧
    Weekly.mergedPRCount total
      = (Weekly.mergedPRCount acc + sum_list (Weekly.mergedPRCount <$> l))%nat) as H.
  { induction l as [|m l IH]; intros acc; cbn zeta.
    - cbn. repeat split; lia.
    - cbn [foldl]. specialize (IH (Weekly.mk
        (Weekly.newPRsThisWeek acc + Weekly.newPRsThisWeek m)
        (Weekly.mergedPRsThisWeek acc + Weekly.mergedPRsThisWeek m)
        (Weekly.openPRs acc + Weekly.openPRs m)
        (Weekly.closedPRsThisWeek acc + Weekly.closedPRsThisWeek m)
        (Weekly.totalComments acc + Weekly.totalComments m)
        (Weekly.mergedPRCount acc + Weekly.mergedPRCount m)
        (Weekly.totalMergeTime acc + Weekly.totalMergeTime m)%Q)).
      cbn zeta in IH. destruct IH as (-> & -> & -> & -> & -> & ->).
      cbn. repeat split; lia. }
  apply (H cm.*2 Weekly.zero).
Qed.

(** X11.  The contributor map of the rolling pass keeps its keys in the
    order in which authors are first seen: one iteration leaves the keys
    as they are when the author has a record and appends the author
    otherwise.  After a pass the keys are the authors of the PRs, each
    once, so the number of active contributors is the number of distinct
    authors. *)
Theorem contributor_map_keys_first_seen
    (lastWeekDate : Z) (prDetailsByRepo : gmap string (gmap Z PRDetail)) :
  (∀ contributorMetrics pr,
     (processWeeklyPR lastWeekDate prDetailsByRepo contributorMetrics pr).*1 =
     (contributorMetrics.*1 ++
      if decide (user_login pr ∈ contributorMetrics.*1) then [] else [user_login pr])%list) ∧
  (∀ allPRs,
     let keys := (processWeeklyPRs lastWeekDate prDetailsByRepo allPRs).*1 in
     NoDup keys ∧
     (∀ author, author ∈ keys ↔ author ∈ user_login <$> allPRs) ∧
     length (processWeeklyPRs lastWeekDate prDetailsByRepo allPRs) =
       size (list_to_set (user_login <$> allPRs) : gset string)).
Proof.
  split; [apply processWeeklyPR_keys|].
  intros prs. cbn zeta.
  pose proof (wrun_keys_NoDup lastWeekDate prDetailsByRepo prs) as Hnodup.
  pose proof (wrun_keys_authors lastWeekDate prDetailsByRepo prs) as Hkeys.
  split; [done|]. split; [done|].
  rewrite <-(length_fmap fst), <-(size_list_to_set (C := gset string)) by done.
  f_equal. apply set_eq. intros a. by rewrite !elem_of_list_to_set.
Qed.

(** X12.  After the rolling pass an author has a record exactly when the
    list holds a PR of that author, and the record counts that author's
    PRs: created after the window start in [newPRsThisWeek], open in
    [openPRs], not open and merged after the window start in
    [mergedPRsThisWeek], not open, never merged and closed after the window
    start in [closedPRsThisWeek]. *)
Theorem weekly_record_counts_authors_PRs
    (lastWeekDate : Z) (prDetailsByRepo : gmap string (gmap Z PRDetail))
    (allPRs : list PullRequest) (author : string) :
  let found := Map_get author (processWeeklyPRs lastWeekDate prDetailsByRepo allPRs) in
  let m := default Weekly.zero found in
  let by_author p := count (λ pr, bool_decide (user_login pr = author) && p pr) allPRs in
  (found = None ↔ author ∉ user_login <$> allPRs) ∧
  Weekly.newPRsThisWeek m = by_author (weeklyNew lastWeekDate) ∧
  Weekly.openPRs m = by_author weeklyOpen ∧
  Weekly.mergedPRsThisWeek m = by_author (weeklyMerged lastWeekDate) ∧
  Weekly.closedPRsThisWeek m = by_author (weeklyClosed lastWeekDate).
Proof.
  cbn zeta. split; [|repeat split].
  - rewrite Map_get_None_keys. by rewrite wrun_keys_authors.
  - rewrite <-sumBy_oneIf.
    apply (wrun_measure lastWeekDate prDetailsByRepo Weekly.newPRsThisWeek); [done|].
    apply update_newPRsThisWeek.
  - rewrite <-sumBy_oneIf.
    apply (wrun_measure lastWeekDate prDetailsByRepo Weekly.openPRs); [done|].
    intros pr m. apply update_counters.
  - rewrite <-sumBy_oneIf.
    apply (wrun_measure lastWeekDate prDetailsByRepo Weekly.mergedPRsThisWeek); [done|].
    intros pr m. apply update_counters.
  - rewrite <-sumBy_oneIf.
    apply (wrun_measure lastWeekDate prDetailsByRepo Weekly.closedPRsThisWeek); [done|].
    intros pr m. apply update_counters.
Qed.

(** X14.  The totals of the summary block are counts over all PRs of the
    pass: the PRs created after the window start, the open ones, those
    merged and those closed without merge after the window start, and the
    comments of all of them; the weekly activity is the sum of the new,
    merged and closed counts, open PRs left out. *)
Theorem weekly_totals_count_all_PRs
    (lastWeekDate : Z) (prDetailsByRepo : gmap string (gmap Z PRDetail))
    (allPRs : list PullRequest) :
  let contributorMetrics := processWeeklyPRs lastWeekDate prDetailsByRepo allPRs in
  let totals := totalMetrics contributorMetrics in
  Weekly.newPRsThisWeek totals = count (weeklyNew lastWeekDate) allPRs ∧
  Weekly.openPRs totals = count weeklyOpen allPRs ∧
  Weekly.mergedPRsThisWeek totals = count (weeklyMerged lastWeekDate) allPRs ∧
  Weekly.closedPRsThisWeek totals = count (weeklyClosed lastWeekDate) allPRs ∧
  Weekly.totalComments totals = sum_list (commentsOf prDetailsByRepo <$> allPRs) ∧
  Weekly.mergedPRCount totals = count (weeklyMerged lastWeekDate) allPRs ∧
  totalWeeklyActivity contributorMetrics =
    (count (weeklyNew lastWeekDate) allPRs + count (weeklyMerged lastWeekDate) allPRs
     + count (weeklyClosed lastWeekDate) allPRs)%nat.
Proof.
  cbn zeta. unfold totalWeeklyActivity.
  set (cm := processWeeklyPRs lastWeekDate prDetailsByRepo allPRs).
  destruct (totalMetrics_fields cm) as (-> & -> & -> & -> & -> & ->). subst cm.
  assert (sumWeekly Weekly.newPRsThisWeek
            (processWeeklyPRs lastWeekDate prDetailsByRepo allPRs)
          = count (weeklyNew lastWeekDate) allPRs) as ->.
  { rewrite <-sum_list_oneIf. apply wrun_sumWeekly; [done|].
    apply update_newPRsThisWeek. }
  assert (sumWeekly Weekly.openPRs
            (processWeeklyPRs lastWeekDate prDetailsByRepo allPRs)
          = count weeklyOpen allPRs) as ->.
  { rewrite <-sum_list_oneIf. apply wrun_sumWeekly; [done|].
    intros pr m. apply update_counters. }
  assert (sumWeekly Weekly.mergedPRsThisWeek
            (processWeeklyPRs lastWeekDate prDetailsByRepo allPRs)
          = count (weeklyMerged lastWeekDate) allPRs) as ->.
  { rewrite <-sum_list_oneIf. apply wrun_sumWeekly; [done|].
    intros pr m. apply update_counters. }
  assert (sumWeekly Weekly.closedPRsThisWeek
            (processWeeklyPRs lastWeekDate prDetailsByRepo allPRs)
          = count (weeklyClosed lastWeekDate) allPRs) as ->.
  { rewrite <-sum_list_oneIf. apply wrun_sumWeekly; [done|].
    intros pr m. apply update_counters. }
  assert (sumWeekly Weekly.totalComments
            (processWeeklyPRs lastWeekDate prDetailsByRepo allPRs)
          = sum_list (commentsOf prDetailsByRepo <$> allPRs)) as ->.
  { apply wrun_sumWeekly; [done|]. apply update_totalComments. }
  assert (sumWeekly Weekly.mergedPRCount
            (processWeeklyPRs lastWeekDate prDetailsByRepo allPRs)
          = count (weeklyMerged lastWeekDate) allPRs) as ->.
  { rewrite <-sum_list_oneIf. apply wrun_sumWeekly; [done|].
    apply update_mergedPRCount. }
  done.
Qed.

(** ** generateWeeklyPRReport: fetching and grouping *)

Lemma mapM_Normal {A B} (f : A → Completion B) (g : A → B) (l : list A) :
  (∀ x, x ∈ l → f x = Normal (g x)) → mapM f l = Normal (g <$> l).
Proof.
  induction l as [|x l IH]; intros Hf; [done|].
  cbn. rewrite Hf by left. cbn. rewrite IH; [done|].
  intros y Hy. apply Hf. by right.
Qed.

Lemma fetchPRs_fetched octokit repo : fetchPRs octokit repo = Normal (fetched octokit repo).
Proof.
  unfold fetched, fetchPRs. by destruct (pulls_list octokit repo).
Qed.

Lemma fetchPRDetails_fetched octokit repo nums :
  fetchPRDetails octokit repo nums = Normal (fetchedDetails octokit repo nums).
Proof.
  unfold fetchedDetails.
  destruct (fetchPRDetails_lookup octokit repo nums) as (d & -> & _). done.
Qed.





Lemma weeklyContributorMetrics_run octokit repositories lastWeekDate :
  weeklyContributorMetrics octokit repositories lastWeekDate =
  Normal (processWeeklyPRs lastWeekDate
            (fetchedDetailsByRepo octokit (allFetched octokit repositories))
            (allFetched octokit repositories)).
Proof.
  unfold weeklyContributorMetrics.
  rewrite (mapM_Normal _ (fetched octokit)) by (intros; apply fetchPRs_fetched).
  cbn [mbind Completion_bind await].
  rewrite (mapM_Normal _
             (λ '(repo, prNumbers), (repo, fetchedDetails octokit repo prNumbers))).
  - done.
  - intros [repo nums] _. by rewrite fetchPRDetails_fetched.
Qed.



(** ** Ranking: what the order depends on *)

Lemma Array_sort_sorted_id {A} (cmp : A → A → Z) l :
  StronglySorted (λ a b, cmp a b ≤ 0) l → Array_sort cmp l = l.
Proof.
  induction 1 as [|x l Hl IH Hx]; [done|].
  cbn [Array_sort]. rewrite IH. destruct Hx as [|y l' Hy Hl']; [done|].
  cbn [sort_insert]. by rewrite (proj2 (Z.leb_le _ _) Hy).
Qed.

Lemma ranksNoLower_antisym a b :
  ranksNoLower a b → ranksNoLower b a → rankKeys a = rankKeys b.
Proof.
  unfold ranksNoLower, rankKeys. intros H1 H2.
  f_equal; [f_equal|]; lia.
Qed.

(** X15.  Ranking is idempotent: ranking the ranked contributors again
    changes nothing. *)
Theorem ranking_is_idempotent (contributorMetrics : ContributorMap) :
  sortedContributors (sortedContributors contributorMetrics)
  = sortedContributors contributorMetrics.
Proof.
  unfold sortedContributors. apply Array_sort_sorted_id.
  apply Array_sort_sorted.
  - intros e1 e2. apply compareContributors_connex.
  - intros e1 e2 e3. apply compareContributors_trans.
Qed.

(** X16.  When no two contributors have the same three ranking keys, the
    ranked table does not depend on the order in which the contributors
    entered the map: two maps with the same entries are ranked alike. *)
Theorem ranking_independent_of_insertion_order
    (contributorMetrics contributorMetrics' : ContributorMap) :
  contributorMetrics ≡ₚ contributorMetrics' →
  NoDup ((λ entry, rankKeys entry.2) <$> contributorMetrics) →
  sortedContributors contributorMetrics = sortedContributors contributorMetrics'.
Proof.
  intros Hperm Hdistinct.
  apply (StronglySorted_unique_strong
           (λ e1 e2 : string * Weekly.t, ranksNoLower e1.2 e2.2)).
  - intros e1 e2 H1 H2 H12 H21.
    pose proof (ranksNoLower_antisym _ _ H12 H21) as Hkeys.
    unfold sortedContributors in H1, H2.
    rewrite Array_sort_perm in H1. rewrite Array_sort_perm, <-Hperm in H2.
    apply list_elem_of_lookup in H1 as [i Hi], H2 as [j Hj].
    assert (i = j) as ->; [|congruence].
    eapply NoDup_lookup; [exact Hdistinct| |].
    + by rewrite list_lookup_fmap, Hi.
    + rewrite list_lookup_fmap, Hj. cbn. by rewrite Hkeys.
  - apply sortedContributors_sorted.
  - apply sortedContributors_sorted.
  - unfold sortedContributors. by rewrite !Array_sort_perm.
Qed.

Lemma ranking_independent_of_insertion_order_witness :
  sortedContributors
    [("first", Weekly.mk 2 3 0 0 0 0 0); ("second", Weekly.mk 5 3 0 0 0 0 0)]
  = sortedContributors
    [("second", Weekly.mk 5 3 0 0 0 0 0); ("first", Weekly.mk 2 3 0 0 0 0 0)].
Proof.
  apply ranking_independent_of_insertion_order.
  - apply Permutation_swap.
  - refine (bool_decide_unpack _ _). vm_compute. exact I.
Defined.

(** ** The summary block of the weekly report *)

(** X17.  For the contributor map of a rolling pass, the summary block
    shows the number of distinct authors as active contributors, then the
    counts over all PRs of those created after the window start, those
    merged and those closed without merge after it, the open ones, and the
    sum of the first three as weekly activity; the average time to merge
    reads 0.0 when no PR was merged after the window start. *)
Theorem weekly_summary_block
    (lastWeekDate : Z) (prDetailsByRepo : gmap string (gmap Z PRDetail))
    (allPRs : list PullRequest) (repositories : list string) :
  let contributorMetrics := processWeeklyPRs lastWeekDate prDetailsByRepo allPRs in
  let block := summaryStatistics contributorMetrics repositories in
  let new := count (weeklyNew lastWeekDate) allPRs in
  let merged := count (weeklyMerged lastWeekDate) allPRs in
  let closed := count (weeklyClosed lastWeekDate) allPRs in
  length block = 12%nat ∧
  block !! 1%nat =
    Some ("- Total Active Contributors: "
          ++ showNat (size (list_to_set (user_login <$> allPRs) : gset string))
          ++ newline) ∧
  block !! 2%nat = Some ("- New PRs This Week: " ++ showNat new ++ newline) ∧
  block !! 3%nat = Some ("- PRs Merged This Week: " ++ showNat merged ++ newline) ∧
  block !! 4%nat =
    Some ("- PRs Closed Without Merge This Week: " ++ showNat closed ++ newline) ∧
  block !! 5%nat =
    Some ("- Currently Open PRs: " ++ showNat (count weeklyOpen allPRs) ++ newline) ∧
  block !! 6%nat =
    Some ("- Total Weekly PR Activity: " ++ showNat (new + merged + closed) ++ newline) ∧
  (merged = 0%nat →
   block !! 7%nat = Some ("- Average Time to Merge: 0.0 hours" ++ newline)).
Proof.
  cbn zeta. unfold summaryStatistics, totalWeeklyActivity.
  set (cm := processWeeklyPRs lastWeekDate prDetailsByRepo allPRs).
  destruct (totalMetrics_fields cm) as (Hn & Hm & Ho & Hc & _ & Hcount).
  assert (sumWeekly Weekly.newPRsThisWeek cm = count (weeklyNew lastWeekDate) allPRs)
    as Hn'.
  { rewrite <-sum_list_oneIf. apply wrun_sumWeekly; [done|].
    apply update_newPRsThisWeek. }
  assert (sumWeekly Weekly.openPRs cm = count weeklyOpen allPRs) as Ho'.
  { rewrite <-sum_list_oneIf. apply wrun_sumWeekly; [done|].
    intros pr m. apply update_counters. }
  assert (sumWeekly Weekly.mergedPRsThisWeek cm
          = count (weeklyMerged lastWeekDate) allPRs) as Hm'.
  { rewrite <-sum_list_oneIf. apply wrun_sumWeekly; [done|].
    intros pr m. apply update_counters. }
  assert (sumWeekly Weekly.closedPRsThisWeek cm
          = count (weeklyClosed lastWeekDate) allPRs) as Hc'.
  { rewrite <-sum_list_oneIf. apply wrun_sumWeekly; [done|].
    intros pr m. apply update_counters. }
  assert (sumWeekly Weekly.mergedPRCount cm
          = count (weeklyMerged lastWeekDate) allPRs) as Hcount'.
  { rewrite <-sum_list_oneIf. apply wrun_sumWeekly; [done|].
    apply update_mergedPRCount. }
  assert (length cm = size (list_to_set (user_login <$> allPRs) : gset string))
    as Hsize.
  { pose proof (wrun_keys_NoDup lastWeekDate prDetailsByRepo allPRs) as Hnodup.
    rewrite <-(length_fmap fst), <-(size_list_to_set (C := gset string)) by done.
    f_equal. apply set_eq. intros a. rewrite !elem_of_list_to_set.
    apply wrun_keys_authors. }
  rewrite Hn, Hm, Ho, Hc, Hn', Hm', Ho', Hc', Hsize.
  repeat (split; [reflexivity|]).
  intros Hzero. cbn [lookup list_lookup]. unfold overallAvgTimeToMerge.
  rewrite avgTimeToMergeCell_zero; [done|]. by rewrite Hcount, Hcount'.
Qed.

(** ** Strings *)

Lemma String_split_cons sep s : ∃ l ls, String_split sep s = l :: ls.
Proof.
  induction s as [|c s (l & ls & IH)]; cbn; [by eexists _, _|].
  destruct (decide (c = sep)); [by eexists _, _|]. rewrite IH. by eexists _, _.
Qed.

Lemma String_split_no_sep sep s :
  Forall (λ l, sep ∉ chars l) (String_split sep s).
Proof.
  induction s as [|c s IH]; cbn.
  - repeat constructor. apply not_elem_of_nil.
  - destruct (decide (c = sep)) as [->|Hc].
    + constructor; [apply not_elem_of_nil|done].
    + destruct (String_split sep s) as [|l ls]; cbn.
      * repeat constructor. cbn. rewrite not_elem_of_cons.
        split; [done|apply not_elem_of_nil].
      * inversion IH as [|? ? Hl Hls]; subst. constructor; [|done].
        cbn. rewrite not_elem_of_cons. split; [congruence|done].
Qed.

Lemma String_concat_cons sep l l' ls :
  String.concat sep (l :: l' :: ls) = l ++ sep ++ String.concat sep (l' :: ls).
Proof. done. Qed.

Lemma String_app_cons c (a b : string) : String c a ++ b = String c (a ++ b).
Proof. reflexivity. Qed.

Lemma String_app_nil_l (b : string) : "" ++ b = b.
Proof. reflexivity. Qed.

Lemma String_app_assoc (a b c : string) : (a ++ b) ++ c = a ++ b ++ c.
Proof.
  induction a as [|x a IH]; [done|]. rewrite !String_app_cons. by rewrite IH.
Qed.

Lemma String_app_nil_r (a : string) : a ++ "" = a.
Proof.
  induction a as [|x a IH]; [done|]. rewrite String_app_cons. by rewrite IH.
Qed.

Lemma String_concat_app sep l1 l l2 :
  l1 ≠ [] →
  String.concat sep (l1 ++ l :: l2) =
  String.concat sep l1 ++ sep ++ String.concat sep (l :: l2).
Proof.
  induction l1 as [|x l1 IH]; intros Hne; [done|].
  destruct l1 as [|y l1].
  - done.
  - cbn [app] in *. rewrite !String_concat_cons, IH by done.
    by rewrite !String_app_assoc.
Qed.

(** Splitting what [join] glued gives the pieces back, when no piece
    holds the separator. *)
Lemma String_split_concat sep l ls :
  Forall (λ l, sep ∉ chars l) (l :: ls) →
  String_split sep (String.concat (String sep "") (l :: ls)) = l :: ls.
Proof.
  revert l. induction ls as [|l' ls IH]; intros l Hno.
  - cbn [String.concat]. inversion Hno as [|? ? Hl _]; subst. clear Hno.
    induction l as [|c l IHl]; [done|]. cbn [String_split chars] in *.
    apply not_elem_of_cons in Hl as [Hc Hl].
    rewrite decide_False by done. by rewrite IHl.
  - rewrite String_concat_cons.
    inversion Hno as [|? ? Hl Hrest]; subst. specialize (IH l' Hrest).
    clear Hno. induction l as [|c l IHl].
    + rewrite String_app_nil_l, String_app_cons, String_app_nil_l.
      cbn [String_split]. rewrite decide_True by done. by rewrite IH.
    + rewrite String_app_cons. cbn [String_split chars] in *.
      apply not_elem_of_cons in Hl as [Hc Hl].
      rewrite decide_False by done. by rewrite IHl.
Qed.

Lemma String_prefix_refl s : String.prefix s s = true.
Proof.
  induction s as [|c s IH]; [done|]. cbn. by destruct (Ascii.ascii_dec c c).
Qed.

Lemma String_includes_app needle pre :
  String_includes needle (pre ++ needle) = true.
Proof.
  induction pre as [|c pre IH].
  - rewrite String_app_nil_l. destruct needle; cbn; [done|].
    rewrite String_prefix_refl. by destruct (Ascii.ascii_dec _ _).
  - rewrite String_app_cons. cbn [String_includes]. rewrite IH. apply orb_true_r.
Qed.

Lemma chars_app a b : chars (a ++ b) = (chars a ++ chars b)%list.
Proof.
  induction a as [|c a IH]; [done|]. rewrite String_app_cons. cbn [chars app].
  by rewrite IH.
Qed.

(** ** Cron setup *)

Lemma count_app {A} (p : A → bool) l1 l2 :
  count p (l1 ++ l2) = (count p l1 + count p l2)%nat.
Proof. unfold count. by rewrite filter_app, length_app. Qed.

Lemma count_Forall_false {A} (p : A → bool) l :
  Forall (λ x, p x = false) l → count p l = 0%nat.
Proof.
  induction 1 as [|x l Hx Hl IH]; [done|]. by rewrite count_cons, Hx, IH.
Qed.

(** X18.  For a script path that is not empty and has no line break, the
    crontab text that [setupCronJob] installs consists of the old lines that
    do not mention the script, in their order (dropped only when they
    amount to the empty text), then the new cron line, then the final line
    break: exactly one line mentions the script, however many did
    before. *)
Theorem newCrontab_has_one_entry (scriptPath stdout : string) :
  scriptPath ≠ "" →
  linefeed ∉ chars scriptPath →
  let oldLines :=
    filter (λ line, String_includes scriptPath line = false)
           (String_split linefeed stdout) in
  let lines := String_split linefeed (newCrontab scriptPath stdout) in
  ∃ kept,
    lines = (kept ++ [cronCommand scriptPath; ""])%list ∧
    (kept = oldLines ∨ (kept = [] ∧ String.concat newline oldLines = "")) ∧
    count (String_includes scriptPath) lines = 1%nat.
Proof.
  intros Hne Hnl. cbn zeta. unfold newCrontab.
  set (oldLines := filter (λ line, String_includes scriptPath line = false)
                          (String_split linefeed stdout)).
  assert (Forall (λ l, linefeed ∉ chars l) oldLines) as Hold.
  { apply Forall_forall. intros l [_ Hl]%list_elem_of_filter.
    pose proof (String_split_no_sep linefeed stdout) as Hall.
    rewrite Forall_forall in Hall. by apply Hall. }
  assert (Forall (λ l, String_includes scriptPath l = false) oldLines) as Hkept.
  { apply Forall_forall. by intros l [? _]%list_elem_of_filter. }
  assert (linefeed ∉ chars (cronCommand scriptPath)) as Hcmd.
  { unfold cronCommand. rewrite chars_app, not_elem_of_app. split; [|done].
    vm_compute. intros H. repeat (apply elem_of_cons in H as [H|H]; [done|]).
    by apply elem_of_nil in H. }
  assert (Forall (λ l, linefeed ∉ chars l) [cronCommand scriptPath; ""]) as Htail.
  { repeat constructor; [done|apply not_elem_of_nil]. }
  assert (count (String_includes scriptPath) [cronCommand scriptPath; ""] = 1%nat)
    as Hone.
  { rewrite !count_cons. unfold cronCommand. rewrite String_includes_app.
    destruct scriptPath; [done|]. done. }
  case_bool_decide as Hempty.
  - exists []. rewrite Hempty, !String_app_nil_l. cbn [app].
    change (cronCommand scriptPath ++ newline)
      with (String.concat (String linefeed "") [cronCommand scriptPath; ""]).
    rewrite (String_split_concat linefeed) by done.
    split; [done|]. split; [by right|done].
  - exists oldLines.
    assert (oldLines ≠ []) as Hnonnil by (by intros ->).
    change (cronCommand scriptPath ++ newline)
      with (String.concat newline [cronCommand scriptPath; ""]).
    rewrite <-String_concat_app by done.
    change newline with (String linefeed "").
    destruct oldLines as [|l ls] eqn:E; [done|]. cbn [app].
    rewrite (String_split_concat linefeed).
    + split; [done|]. split; [by left|].
      change (l :: (ls ++ [cronCommand scriptPath; ""])%list)
        with ((l :: ls) ++ [cronCommand scriptPath; ""])%list.
      rewrite count_app, Hone, count_Forall_false by done. done.
    + change (l :: (ls ++ [cronCommand scriptPath; ""])%list)
        with ((l :: ls) ++ [cronCommand scriptPath; ""])%list.
      by apply Forall_app.
Qed.

Lemma newCrontab_has_one_entry_witness :
  let scriptPath := "/srv/report/index.js" in
  let stdout := "0 8 * * * node /srv/report/index.js" ++ newline
                ++ "0 0 * * * backup" ++ newline in
  let oldLines :=
    filter (λ line, String_includes scriptPath line = false)
           (String_split linefeed stdout) in
  let lines := String_split linefeed (newCrontab scriptPath stdout) in
  ∃ kept,
    lines = (kept ++ [cronCommand scriptPath; ""])%list ∧
    (kept = oldLines ∨ (kept = [] ∧ String.concat newline oldLines = "")) ∧
    count (String_includes scriptPath) lines = 1%nat.
Proof.
  apply newCrontab_has_one_entry.
  - discriminate.
  - vm_compute. intros H. repeat (apply elem_of_cons in H as [H|H]; [done|]).
    by apply elem_of_nil in H.
Defined.

(** ** Configuration *)









(** ** The report directories and the report file *)

Lemma FileSystem_eq fs1 fs2 :
  dirs fs1 = dirs fs2 → files fs1 = files fs2 → fs1 = fs2.
Proof. destruct fs1, fs2; cbn; by intros -> ->. Qed.

Lemma ensure_step fs p :
  (∀ q, q ∈ (ancestors p ++ [p])%list → files fs !! q = None) →
  (∀ q, q ∈ ancestors p → q ∈ dirs fs) →
  (if negb (existsSync fs p) then mkdirSync_recursive p fs else Normal fs) =
  Normal {| dirs := dirs fs ∪ {[p]}; files := files fs |}.
Proof.
  intros Hfiles Hdirs. unfold existsSync.
  rewrite (bool_decide_eq_false_2 (is_Some (files fs !! p))).
  2: { rewrite Hfiles; [by intros [? ?]|]. apply elem_of_app. right. left. }
  rewrite orb_false_r. case_bool_decide as Hp; cbn [negb].
  - f_equal. apply FileSystem_eq; cbn; [|done].
    apply set_eq. intros q. rewrite elem_of_union, elem_of_singleton.
    split; [by left|]. by intros [?| ->].
  - unfold mkdirSync_recursive. rewrite bool_decide_eq_false_2.
    + f_equal. apply FileSystem_eq; cbn; [|done].
      apply set_eq. intros q.
      rewrite !elem_of_union, elem_of_list_to_set, elem_of_app, elem_of_singleton,
        list_elem_of_singleton.
      split; [|intros [?|?]; auto].
      intros [?|[Hq|?]]; auto.
    + rewrite Exists_exists. intros (q & Hq & [v Hv]). by rewrite Hfiles in Hv.
Qed.

Lemma ensure_step_exists fs p :
  p ∈ dirs fs →
  (if negb (existsSync fs p) then mkdirSync_recursive p fs else Normal fs) = Normal fs.
Proof.
  intros Hp. unfold existsSync. by rewrite bool_decide_eq_true_2.
Qed.

Lemma ensureReportDirectories_run date fs :
  let yearDir := ["reports"; date "YYYY"] in
  let monthDir := ["reports"; date "YYYY"; date "MM-MMMM"] in
  files fs !! ["reports"] = None →
  files fs !! yearDir = None →
  files fs !! monthDir = None →
  ensureReportDirectories date fs =
  Normal (monthDir,
          {| dirs := dirs fs ∪ {[ ["reports"] ]} ∪ {[ yearDir ]} ∪ {[ monthDir ]};
             files := files fs |}).
Proof.
  cbn zeta. intros Hbase Hyear Hmonth.
  unfold ensureReportDirectories, path_join, REPORTS_BASE_DIR. cbn [app forEach_ensure].
  rewrite ensure_step.
  2: { intros q [->|H]%elem_of_cons; [done|by apply elem_of_nil in H]. }
  2: { intros q H. by apply elem_of_nil in H. }
  cbn [mbind Completion_bind await].
  rewrite ensure_step.
  2: { cbn. intros q H.
       repeat (apply elem_of_cons in H as [->|H]; [done|]). by apply elem_of_nil in H. }
  2: { cbn. intros q [->|H]%elem_of_cons; [|by apply elem_of_nil in H].
       apply elem_of_union. right. by apply elem_of_singleton. }
  cbn [mbind Completion_bind await].
  rewrite ensure_step.
  2: { cbn. intros q H.
       repeat (apply elem_of_cons in H as [->|H]; [done|]). by apply elem_of_nil in H. }
  2: { cbn. intros q H. rewrite !elem_of_union, !elem_of_singleton.
       apply elem_of_cons in H as [->|H]; [left; by right|].
       apply elem_of_cons in H as [->|H]; [by right|]. by apply elem_of_nil in H. }
  done.
Qed.

(** X20.  When no regular file sits at [reports], at the year directory or
    at the month directory, [ensureReportDirectories] succeeds and returns
    the month directory [reports/YYYY/MM-Month]; afterwards the three
    directories exist, every directory that existed still does, and no
    file has changed.  Calling it again changes nothing. *)
Theorem ensureReportDirectories_creates_what_is_missing
    (date : string → string) (fs : FileSystem) :
  let yearDir := ["reports"; date "YYYY"] in
  let monthDir := ["reports"; date "YYYY"; date "MM-MMMM"] in
  files fs !! ["reports"] = None →
  files fs !! yearDir = None →
  files fs !! monthDir = None →
  ∃ fs',
    ensureReportDirectories date fs = Normal (monthDir, fs') ∧
    dirs fs' = dirs fs ∪ {[ ["reports"]; yearDir; monthDir ]} ∧
    files fs' = files fs ∧
    ensureReportDirectories date fs' = Normal (monthDir, fs').
Proof.
  cbn zeta. intros Hbase Hyear Hmonth.
  eexists. split; [by apply ensureReportDirectories_run|]. cbn [dirs files].
  split; [|split; [done|]].
  - apply set_eq. intros q. rewrite !elem_of_union, !elem_of_singleton. tauto.
  - rewrite ensureReportDirectories_run by done. cbn [dirs files].
    do 2 f_equal. apply FileSystem_eq; cbn; [|done].
    apply set_eq. intros q. rewrite !elem_of_union, !elem_of_singleton. tauto.
Qed.

Lemma ensureReportDirectories_creates_what_is_missing_witness :
  ∃ fs',
    ensureReportDirectories Sample.feb1 Sample.emptyFileSystem
      = Normal (["reports"; "2024"; "02-February"], fs') ∧
    dirs fs' = dirs Sample.emptyFileSystem
               ∪ {[ ["reports"]; ["reports"; "2024"];
                    ["reports"; "2024"; "02-February"] ]} ∧
    files fs' = files Sample.emptyFileSystem ∧
    ensureReportDirectories Sample.feb1 fs'
      = Normal (["reports"; "2024"; "02-February"], fs').
Proof.
  apply (ensureReportDirectories_creates_what_is_missing
           Sample.feb1 Sample.emptyFileSystem); reflexivity.
Defined.



(** X22.  A run of [generateWeeklyPRReport] ends with [process.exit(1)]
    when the report cannot be stored: when [reports] is a regular file and
    the year directory does not exist, and when a directory sits at the
    path of the report file. *)
Theorem weekly_run_exits_when_report_cannot_be_stored
    (octokit : Octokit) (repositories : list string) (lastWeekDate : Z)
    (lastWeekFormat currentDate headerNow : string → string) (fs : FileSystem) :
  let yearDir := ["reports"; currentDate "YYYY"] in
  let monthDir := ["reports"; currentDate "YYYY"; currentDate "MM-MMMM"] in
  let reportPath :=
    ["reports"; currentDate "YYYY"; currentDate "MM-MMMM";
     "weekly-report-" ++ currentDate "YYYY-MM-DD" ++ ".md"] in
  (is_Some (files fs !! ["reports"]) → existsSync fs yearDir = false →
   generateWeeklyPRReport octokit repositories lastWeekDate
     lastWeekFormat currentDate headerNow fs = Exited 1) ∧
  (files fs !! ["reports"] = None → files fs !! yearDir = None →
   files fs !! monthDir = None → reportPath ∈ dirs fs →
   generateWeeklyPRReport octokit repositories lastWeekDate
     lastWeekFormat currentDate headerNow fs = Exited 1).
Proof.
  cbn zeta. split.
  - intros Hfile Hyear. unfold generateWeeklyPRReport.
    rewrite weeklyContributorMetrics_run. cbn [mbind Completion_bind await].
    unfold ensureReportDirectories, path_join, REPORTS_BASE_DIR.
    cbn [app forEach_ensure].
    assert (existsSync fs ["reports"] = true) as ->.
    { unfold existsSync. rewrite (bool_decide_eq_true_2 (is_Some _)) by done.
      apply orb_true_r. }
    cbn [negb mbind Completion_bind await]. rewrite Hyear. cbn [negb].
    unfold mkdirSync_recursive. rewrite bool_decide_eq_true_2; [done|].
    apply Exists_exists. exists ["reports"]. split; [|done]. cbn. left.
  - intros Hbase Hyear Hmonth Hdir. unfold generateWeeklyPRReport.
    rewrite weeklyContributorMetrics_run. cbn [mbind Completion_bind await].
    rewrite ensureReportDirectories_run by done. cbn [mbind Completion_bind await].
    unfold writeFileSync, path_join, getReportFilename. cbn [app dirs files].
    rewrite bool_decide_eq_true_2; [done|].
    rewrite !elem_of_union. by repeat left.
Qed.

(** X23.  [setupCronJob] treats a missing crontab as an empty one and any
    other failure of [crontab -l] as fatal.  When listing fails and the
    error output does not mention a missing crontab, the promise is
    rejected with that error and no second command is run, so the crontab
    is left alone.  When it fails because there is no crontab and prints
    nothing, the second command installs the cron line alone, and the
    promise is fulfilled exactly when that command succeeds. *)
Theorem setupCronJob_missing_crontab_is_not_an_error
    (scriptPath : string) (exec : string → ExecResult) (error : string) :
  exec_error (exec "crontab -l") = Some error →
  let listed := exec "crontab -l" in
  let install :=
    "echo " ++ dquote ++ cronCommand scriptPath ++ newline ++ dquote ++ " | crontab -" in
  (String_includes "no crontab" (exec_stderr listed) = false →
   setupCronJob scriptPath exec = (Throw error, ["crontab -l"])) ∧
  (String_includes "no crontab" (exec_stderr listed) = true →
   exec_stdout listed = "" →
   (setupCronJob scriptPath exec).2 = ["crontab -l"; install] ∧
   ((setupCronJob scriptPath exec).1 = Normal () ↔
    exec_error (exec install) = None)).
Proof.
  intros Herr. cbn zeta. unfold setupCronJob. rewrite Herr. split.
  - by intros ->.
  - intros -> Hout. cbn [negb]. unfold writeCommand, newCrontab. rewrite Hout.
    cbn [String_split].
    assert (filter (λ line, String_includes scriptPath line = false) [""]
            = [""] ∨
            filter (λ line, String_includes scriptPath line = false) [""]
            = []) as [-> | ->].
    { rewrite filter_cons, filter_nil. case_decide; auto. }
    all: cbn [String.concat]; rewrite bool_decide_eq_true_2 by done;
      rewrite !String_app_nil_l, !String_app_assoc;
      match goal with
      | |- context [exec_error ?r] => destruct (exec_error r) eqn:E
      end; cbn; (split; [done|]); by split.
Qed.

Lemma setupCronJob_missing_crontab_is_not_an_error_witness :
  let exec := λ command : string,
    if bool_decide (command = "crontab -l")
    then {| exec_error := Some "exit status 1"; exec_stdout := "";
            exec_stderr := "no crontab for user" |}
    else {| exec_error := None; exec_stdout := ""; exec_stderr := "" |} in
  let listed := exec "crontab -l" in
  let install :=
    "echo " ++ dquote ++ cronCommand "/srv/report/index.js" ++ newline ++ dquote
    ++ " | crontab -" in
  (String_includes "no crontab" (exec_stderr listed) = false →
   setupCronJob "/srv/report/index.js" exec = (Throw "exit status 1", ["crontab -l"])) ∧
  (String_includes "no crontab" (exec_stderr listed) = true →
   exec_stdout listed = "" →
   (setupCronJob "/srv/report/index.js" exec).2 = ["crontab -l"; install] ∧
   ((setupCronJob "/srv/report/index.js" exec).1 = Normal () ↔
    exec_error (exec install) = None)).
Proof.
  apply (setupCronJob_missing_crontab_is_not_an_error "/srv/report/index.js"
           (λ command : string,
              if bool_decide (command = "crontab -l")
              then {| exec_error := Some "exit status 1"; exec_stdout := "";
                      exec_stderr := "no crontab for user" |}
              else {| exec_error := None; exec_stdout := ""; exec_stderr := "" |})
           "exit status 1").
  reflexivity.
Defined.

(** ** Re-running the weekly report *)

Lemma generateWeeklyPRReport_result
    octokit repositories lastWeekDate lastWeekFormat currentDate headerNow fs :
  let yearDir := ["reports"; currentDate "YYYY"] in
  let monthDir := ["reports"; currentDate "YYYY"; currentDate "MM-MMMM"] in
  let reportPath :=
    ["reports"; currentDate "YYYY"; currentDate "MM-MMMM";
     "weekly-report-" ++ currentDate "YYYY-MM-DD" ++ ".md"] in
  files fs !! ["reports"] = None →
  files fs !! yearDir = None →
  files fs !! monthDir = None →
  reportPath ∉ dirs fs →
  generateWeeklyPRReport octokit repositories lastWeekDate
    lastWeekFormat currentDate headerNow fs =
  Finished
    {| dirs := dirs fs ∪ {[ ["reports"] ]} ∪ {[ yearDir ]} ∪ {[ monthDir ]};
       files :=
         <[reportPath :=
             weeklyReport lastWeekFormat headerNow
               (processWeeklyPRs lastWeekDate
                  (fetchedDetailsByRepo octokit (allFetched octokit repositories))
                  (allFetched octokit repositories))
               repositories]> (files fs) |}.
Proof.
  cbn zeta. intros Hbase Hyear Hmonth Hreport.
  unfold generateWeeklyPRReport.
  rewrite weeklyContributorMetrics_run. cbn [mbind Completion_bind await].
  rewrite ensureReportDirectories_run by done. cbn [mbind Completion_bind await].
  unfold writeFileSync, path_join, getReportFilename. cbn [app dirs files].
  rewrite bool_decide_eq_false_2.
  2: { rewrite !elem_of_union, !elem_of_singleton.
       intros [[[?|?]|?]|?]; done. }
  rewrite bool_decide_eq_true_2; [done|].
  cbn. repeat constructor; rewrite !elem_of_union, !elem_of_singleton; tauto.
Qed.

(** X24.  A second run of [generateWeeklyPRReport] on the same day
    replaces the report of the first: the file system after both runs is
    the one that the second run alone would have left. *)
Theorem weekly_rerun_replaces_the_report
    (octokit octokit' : Octokit) (repositories repositories' : list string)
    (lastWeekDate lastWeekDate' : Z)
    (lastWeekFormat lastWeekFormat' currentDate headerNow headerNow' : string → string)
    (fs fs1 : FileSystem) :
  let yearDir := ["reports"; currentDate "YYYY"] in
  let monthDir := ["reports"; currentDate "YYYY"; currentDate "MM-MMMM"] in
  let reportPath :=
    ["reports"; currentDate "YYYY"; currentDate "MM-MMMM";
     "weekly-report-" ++ currentDate "YYYY-MM-DD" ++ ".md"] in
  files fs !! ["reports"] = None →
  files fs !! yearDir = None →
  files fs !! monthDir = None →
  reportPath ∉ dirs fs →
  generateWeeklyPRReport octokit repositories lastWeekDate
    lastWeekFormat currentDate headerNow fs = Finished fs1 →
  generateWeeklyPRReport octokit' repositories' lastWeekDate'
    lastWeekFormat' currentDate headerNow' fs1 =
  generateWeeklyPRReport octokit' repositories' lastWeekDate'
    lastWeekFormat' currentDate headerNow' fs.
Proof.
  cbn zeta. intros Hbase Hyear Hmonth Hreport Hfirst.
  rewrite generateWeeklyPRReport_result in Hfirst by done.
  injection Hfirst as <-.
  rewrite !generateWeeklyPRReport_result; cbn [dirs files]; try done.
  - f_equal. apply FileSystem_eq; cbn [dirs files].
    + apply set_eq. intros q. rewrite !elem_of_union, !elem_of_singleton. tauto.
    + by rewrite insert_insert_eq.
  - by rewrite lookup_insert_ne.
  - by rewrite lookup_insert_ne.
  - by rewrite lookup_insert_ne.
  - rewrite !elem_of_union, !elem_of_singleton. intros [[[?|?]|?]|?]; done.
Qed.

Lemma weekly_rerun_replaces_the_report_witness :
  ∃ fs1,
    generateWeeklyPRReport Sample.octokit ["testRepo"] Sample.startDate
      Sample.feb1 Sample.feb1 Sample.feb1 Sample.emptyFileSystem = Finished fs1 ∧
    generateWeeklyPRReport Sample.offline ["testRepo"] Sample.startDate
      Sample.feb1 Sample.feb1 Sample.feb1 fs1 =
    generateWeeklyPRReport Sample.offline ["testRepo"] Sample.startDate
      Sample.feb1 Sample.feb1 Sample.feb1 Sample.emptyFileSystem.
Proof.
  eexists. split; [reflexivity|].
  apply (weekly_rerun_replaces_the_report Sample.octokit Sample.offline
           ["testRepo"] ["testRepo"] Sample.startDate Sample.startDate
           Sample.feb1 Sample.feb1 Sample.feb1 Sample.feb1 Sample.feb1
           Sample.emptyFileSystem); try reflexivity.
  vm_compute. discriminate.
Defined.

(** ** Detail failures and the counters of the bounded pass *)

Lemma processPR_coreCounters start end_ D1 D2 st1 st2 pr :
  coreCounters st1 = coreCounters st2 →
  coreCounters (processPR start end_ D1 st1 pr)
  = coreCounters (processPR start end_ D2 st2 pr).
Proof.
  unfold coreCounters at 1 2. intros [= Hn Hm Ho Ht Hc].
  destruct (inRange start end_ pr) eqn:Hin.
  2: { rewrite !processPR_out by done. unfold coreCounters. congruence. }
  rewrite !processPR_in by done. unfold coreCounters.
  destruct (recordDetails_fields D1 pr (user_login pr)
    (countState pr (user_login pr) (countNew (user_login pr) st1)))
    as (-> & -> & -> & -> & ->).
  destruct (recordDetails_fields D2 pr (user_login pr)
    (countState pr (user_login pr) (countNew (user_login pr) st2)))
    as (-> & -> & -> & -> & ->).
  unfold countState. case_decide; [cbn; congruence|].
  destruct (merged_at pr); cbn -[Qplus diff_hours]; congruence.
Qed.

Lemma processPRs_coreCounters start end_ D1 D2 prs :
  coreCounters (processPRs start end_ D1 prs)
  = coreCounters (processPRs start end_ D2 prs).
Proof.
  induction prs as [|pr prs IH] using rev_ind; [done|].
  rewrite !run_snoc. by apply processPR_coreCounters.
Qed.

Lemma updateRecord_contributorCounters D1 D2 pr r1 r2 :
  contributorCounters r1 = contributorCounters r2 →
  contributorCounters (updateRecord D1 pr r1)
  = contributorCounters (updateRecord D2 pr r2).
Proof.
  unfold contributorCounters at 1 2. intros [= Hn Hm Ho].
  unfold updateRecord, contributorCounters.
  destruct (D1 !! number pr), (D2 !! number pr); case_decide;
    try destruct (merged_at pr); cbn; congruence.
Qed.

Lemma processPRs_contributorCounters start end_ D1 D2 prs c :
  contributorCounters <$> (contributors (processPRs start end_ D1 prs) !! c)
  = contributorCounters <$> (contributors (processPRs start end_ D2 prs) !! c).
Proof.
  induction prs as [|pr prs IH] using rev_ind; [done|].
  rewrite !run_snoc, !processPR_contributors.
  destruct (newBy start end_ c pr); [|done]. cbn. f_equal.
  apply updateRecord_contributorCounters.
  destruct (contributors (processPRs start end_ D1 prs) !! c),
    (contributors (processPRs start end_ D2 prs) !! c); cbn in *; congruence.
Qed.

(** X25.  Failing detail requests never change the PR counts of the
    bounded report: two clients that answer the list request alike give
    metrics with the same [newPRs], [mergedPRs], [openPRs] and average time
    to merge, and the same three counters for every contributor, whatever
    their detail requests answer. *)
Theorem bounded_counts_independent_of_details
    (octokit octokit' : Octokit) (repo : string) (startDate endDate : Z) :
  pulls_list octokit repo = pulls_list octokit' repo →
  ∃ metrics metrics',
    calculatePRMetrics octokit repo startDate endDate = Normal metrics ∧
    calculatePRMetrics octokit' repo startDate endDate = Normal metrics' ∧
    Metrics.newPRs metrics = Metrics.newPRs metrics' ∧
    Metrics.mergedPRs metrics = Metrics.mergedPRs metrics' ∧
    Metrics.openPRs metrics = Metrics.openPRs metrics' ∧
    Metrics.avgTimeToMerge metrics = Metrics.avgTimeToMerge metrics' ∧
    ∀ contributor,
      contributorCounters <$> (Metrics.contributors metrics !! contributor)
      = contributorCounters <$> (Metrics.contributors metrics' !! contributor).
Proof.
  intros Hlist.
  destruct (calculatePRMetrics_run octokit repo startDate endDate)
    as (prs & D & Hprs & _ & _ & Hrun).
  destruct (calculatePRMetrics_run octokit' repo startDate endDate)
    as (prs' & D' & Hprs' & _ & _ & Hrun').
  assert (prs' = prs) as ->.
  { unfold fetchPRs in Hprs, Hprs'. rewrite <-Hlist in Hprs'. congruence. }
  eexists _, _. split; [done|]. split; [done|].
  pose proof (processPRs_coreCounters startDate endDate D D' prs) as Hcore.
  unfold coreCounters in Hcore. injection Hcore as Hn Hm Ho Ht Hc.
  unfold finalize. cbn [Metrics.newPRs Metrics.mergedPRs Metrics.openPRs
    Metrics.avgTimeToMerge Metrics.contributors].
  rewrite Hn, Hm, Ho, Ht, Hc. repeat (split; [done|]).
  intros c. apply processPRs_contributorCounters.
Qed.

Lemma bounded_counts_independent_of_details_witness :
  ∃ metrics metrics',
    calculatePRMetrics Sample.octokit "testRepo" Sample.startDate Sample.endDate
      = Normal metrics ∧
    calculatePRMetrics Sample.noDetails "testRepo" Sample.startDate Sample.endDate
      = Normal metrics' ∧
    Metrics.newPRs metrics = Metrics.newPRs metrics' ∧
    Metrics.mergedPRs metrics = Metrics.mergedPRs metrics' ∧
    Metrics.openPRs metrics = Metrics.openPRs metrics' ∧
    Metrics.avgTimeToMerge metrics = Metrics.avgTimeToMerge metrics' ∧
    ∀ contributor,
      contributorCounters <$> (Metrics.contributors metrics !! contributor)
      = contributorCounters <$> (Metrics.contributors metrics' !! contributor).
Proof.
  apply (bounded_counts_independent_of_details Sample.octokit Sample.noDetails).
  reflexivity.
Defined.
